(** * notes-gen: chunked note generation with resumable checkpoints

    Shallow embedding of [note_generator.py].

    - Python [str] is [string], holding the text in UTF-8; [len] counts
      its code points; Python [int] is [Z].
    - An exception is represented by the text [str(e)] it carries; code
      that may raise returns a [result].
    - The external collaborators (the environment variable holding the API
      key, the transcript service called by [get_transcript], the
      generative model behind [generate_content]) are Section variables;
      configuring the client is taken to succeed.  The model is a
      deterministic stub: a function from the prompt to either the response
      text or the exception it raises.
    - [progress.json] and [academic_notes.txt] are fields of an explicit
      file system threaded through the code.  Writing them is taken to
      succeed; console output and the progress bar are left out. *)

From Stdlib Require Import String Ascii List ZArith Lia Bool.
Import ListNotations.
Local Open Scope string_scope.
Local Open Scope Z_scope.

(** ** Python primitives used by the program *)

(** A byte of the form 10xxxxxx: inside the UTF-8 encoding of a code
    point, never at its start. *)
Definition continuation_byte (c : ascii) : bool :=
  ((128 <=? nat_of_ascii c) && (nat_of_ascii c <? 192))%nat.

(** The number of code points of a text held in UTF-8. *)
Fixpoint code_points (s : string) : nat :=
  match s with
  | EmptyString => 0%nat
  | String c rest =>
      if continuation_byte c then code_points rest
      else S (code_points rest)
  end.

(** [len(s)] *)
Definition len (s : string) : Z := Z.of_nat (code_points s).

(** Truth value of a [str]: the empty string is false. *)
Definition str_truthy (s : string) : bool :=
  match s with
  | EmptyString => false
  | String _ _ => true
  end.

(** [s.split(sep)] for a one-character separator: one more piece than
    there are separators, pieces may be empty. *)
Fixpoint split (sep : ascii) (s : string) : list string :=
  match s with
  | EmptyString => [""]
  | String c rest =>
      if Ascii.eqb c sep then "" :: split sep rest
      else match split sep rest with
           | piece :: pieces => String c piece :: pieces
           | [] => [String c ""]
           end
  end.

(** [needle in s] *)
Fixpoint contains (needle s : string) : bool :=
  if String.prefix needle s then true
  else match s with
       | EmptyString => false
       | String _ rest => contains needle rest
       end.

(** [l[start:]] with Python's treatment of negative and too large
    starts. *)
Definition slice_from {A} (l : list A) (start : Z) : list A :=
  let n := Z.of_nat (length l) in
  let start' := if start <? 0 then Z.max 0 (n + start) else start in
  skipn (Z.to_nat start') l.

Module Chunker.

(** The body of the [for sentence in text.split(".")] loop of
    [chunk_text], threading [chunks] and [current_chunk]. *)
Fixpoint chunk_loop (max_chunk_size : Z) (sentences : list string)
    (chunks : list string) (current_chunk : string)
    : list string * string :=
  match sentences with
  | [] => (chunks, current_chunk)
  | sentence :: rest =>
      if len current_chunk + len sentence <? max_chunk_size
      then chunk_loop max_chunk_size rest chunks
             (current_chunk ++ sentence ++ ".")
      else chunk_loop max_chunk_size rest (chunks ++ [current_chunk])%list
             (sentence ++ ".")
  end.

Definition chunk_text (text : string) (max_chunk_size : Z) : list string :=
  let '(chunks, current_chunk) :=
    chunk_loop max_chunk_size (split "." text) [] "" in
  if str_truthy current_chunk then (chunks ++ [current_chunk])%list
  else chunks.

(** Default value of [max_chunk_size]. *)
Definition default_max_chunk_size : Z := 8000.

(** The text with every delimiter character removed. *)
Fixpoint without_delimiter (s : string) : string :=
  match s with
  | EmptyString => ""
  | String c rest =>
      if Ascii.eqb c "." then without_delimiter rest
      else String c (without_delimiter rest)
  end.

(** Chunks joined in order: [''.join(chunks)]. *)
Definition join (chunks : list string) : string := String.concat "" chunks.

End Chunker.


(** ** Exceptions *)

(** A computation that may raise; [Raise] carries [str(e)]. *)
Inductive result (A : Type) : Type :=
| Ok (value : A)
| Raise (message : string).
Arguments Ok {A} value.
Arguments Raise {A} message.

Definition bind {A B} (r : result A) (k : A -> result B) : result B :=
  match r with
  | Ok value => k value
  | Raise message => Raise message
  end.

Notation "x <- r ;; k" := (bind r (fun x => k))
  (at level 61, r at next level, right associativity).

(** [str(KeyError(key))] *)
Definition KeyError (key : string) : string := "'" ++ key ++ "'".

(** ** Prompts *)

Definition PROMPT_START : string :=
  "
Act as an expert academic note-taker and content summarizer. Below is the first part of a long lecture transcript. Your task is to analyze this text and generate a comprehensive, structured, and detailed set of notes. The notes must be **written exclusively in simple English**, regardless of the input language.

Crucial Instructions:
* Analyze the Provided Content: Carefully read the entire text. Identify key themes, definitions, examples, and rules.
* Knowledge Augmentation: Supplement the notes with your own knowledge to enrich the content where the transcript is brief.
* Note Structure: Organize the notes with clear headings, bolded key terms, bulleted/numbered lists, and proper formatting for examples and formulas.
* Final Output: Provide the detailed notes for this section. Do not provide a final summary or conclusion.
".

Definition PROMPT_CONTINUE_head : string :=
  "
Act as an expert academic note-taker and content summarizer. Below is another part of a long lecture transcript. Your task is to analyze this new content and seamlessly incorporate it into the existing notes, ensuring context is maintained and the final document is cohesive. The notes must be **written exclusively in simple English**, regardless of the input language.

Crucial Instructions:
* Analyze and Integrate: Carefully read the new text and integrate the information into the notes you have already created. Add new sections, sub-points, definitions, and examples as needed.
* Maintain Context: Do not treat this as a new request. Build directly upon the notes from the previous transcript part, which are provided below.
* Knowledge Augmentation: Continue to use your own knowledge to supplement and enrich the notes where necessary.
* Final Output: Provide the updated, more comprehensive set of notes. Do not provide a final summary or conclusion until all parts are provided.

---
Notes generated so far:
".

Definition PROMPT_CONTINUE_middle : string :=
  "
---
New Transcript Part:
".

Definition PROMPT_CONTINUE_tail : string :=
  "
".

(** [PROMPT_CONTINUE.format(existing_notes=..., new_transcript_chunk=...)]:
    the template has exactly these two fields, in this order. *)
Definition PROMPT_CONTINUE_format (existing_notes new_transcript_chunk : string)
    : string :=
  PROMPT_CONTINUE_head ++ existing_notes ++ PROMPT_CONTINUE_middle
    ++ new_transcript_chunk ++ PROMPT_CONTINUE_tail.

(** ** Text preprocessing *)

Definition is_lower (c : ascii) : bool :=
  ((97 <=? nat_of_ascii c) && (nat_of_ascii c <=? 122))%nat.

Definition is_upper (c : ascii) : bool :=
  ((65 <=? nat_of_ascii c) && (nat_of_ascii c <=? 90))%nat.

(** [re.sub(r'([a-z])([A-Z])', r'\1. \2', text)].  Two matches cannot
    overlap (the second character of a match is upper case, the first of
    the next one lower case), so the scan may resume at the second
    character of a match. *)
Fixpoint preprocess_transcript (text : string) : string :=
  match text with
  | EmptyString => ""
  | String a rest =>
      match rest with
      | String b _ =>
          if is_lower a && is_upper b
          then String a (". " ++ preprocess_transcript rest)
          else String a (preprocess_transcript rest)
      | EmptyString => String a ""
      end
  end.

(** [s.lower()] on ASCII letters. *)
Definition lower_char (c : ascii) : ascii :=
  if is_upper c then ascii_of_nat (nat_of_ascii c + 32) else c.

Fixpoint lower (s : string) : string :=
  match s with
  | EmptyString => ""
  | String c rest => String (lower_char c) (lower rest)
  end.

(** ** The checkpoint record and the files *)

(** The [progress] dictionary.  A field is [None] when the key is
    missing; a present key has the type the program writes. *)
Record progress : Type := {
  video_url : option string;
  transcript_chunks : option (list string);
  notes : option string;
  chunk_index : option Z
}.

(** Truth value of the dictionary: false when it has no key. *)
Definition dict_truthy (d : progress) : bool :=
  match video_url d, transcript_chunks d, notes d, chunk_index d with
  | None, None, None, None => false
  | _, _, _, _ => true
  end.

(** [d[key]] *)
Definition get_item {A} (field : option A) (key : string) : result A :=
  match field with
  | Some value => Ok value
  | None => Raise (KeyError key)
  end.

(** The dictionary written after the chunk before [next_index]. *)
Definition make_progress (url : string) (chunks : list string)
    (document : string) (next_index : Z) : progress :=
  {| video_url := Some url;
     transcript_chunks := Some chunks;
     notes := Some document;
     chunk_index := Some next_index |}.

(** Content of [progress.json]: text that [json.load] rejects with the
    given error, or the dictionary it decodes to.  (Text that decodes to a
    value of another shape is not represented.) *)
Inductive stored : Type :=
| Unparsable (error : string)
| Json (d : progress).

Definition json_load (content : stored) : result progress :=
  match content with
  | Unparsable error => Raise error
  | Json d => Ok d
  end.

Record files : Type := {
  progress_json : option stored;
  academic_notes : option string
}.

(** [json.dump(progress, open("progress.json", "w"))] *)
Definition write_progress (p : progress) (fs : files) : files :=
  {| progress_json := Some (Json p); academic_notes := academic_notes fs |}.

(** [os.remove("progress.json")] on an existing file. *)
Definition remove_progress (fs : files) : files :=
  {| progress_json := None; academic_notes := academic_notes fs |}.

(** What a run does, in order: a call of the model for the chunk at an
    index, and a write of [progress.json]. *)
Inductive event : Type :=
| Generate (current_chunk_index : Z) (chunk : string)
| Save (p : progress).

(** ** Stubs and inputs of the examples *)

(** [c * n] *)
Fixpoint replicate (c : ascii) (n : nat) : string :=
  match n with
  | O => ""
  | S n' => String c (replicate c n')
  end.

(** A transcript of five sentences of 5000 letters each, and the chunks
    it is cut into. *)
Definition lecture : string :=
  replicate "a" 5000 ++ "." ++ replicate "b" 5000 ++ "."
    ++ replicate "c" 5000 ++ "." ++ replicate "d" 5000 ++ "."
    ++ replicate "e" 5000.

Definition lecture_chunks : list string :=
  [replicate "a" 5000 ++ "."; replicate "b" 5000 ++ ".";
   replicate "c" 5000 ++ "."; replicate "d" 5000 ++ ".";
   replicate "e" 5000 ++ "."].

(** A deterministic model: its notes quote the end of the prompt. *)
Definition digest (prompt : string) : string :=
  "Notes (" ++ substring (String.length prompt - 6) 5 prompt ++ ")".

Definition stub_model (prompt : string) : result string :=
  Ok (digest prompt).

(** The same model, out of quota on the part of the lecture in "c". *)
Definition failing_model (prompt : string) : result string :=
  if contains "ccc" prompt then Raise "429 Resource has been exhausted"
  else Ok (digest prompt).

(** A model whose notes quote an error message of the lecture. *)
Definition quoting_model (prompt : string) : result string :=
  Ok "Python prints: An error occurred: division by zero".

Definition lecture_transcript (url : string) : result string := Ok lecture.

Definition talk_transcript (url : string) : result string :=
  Ok "Hello world. This is a test.".

(** The transcript service on a URL without [v=]. *)
Definition no_transcript (url : string) : result string :=
  Raise "An error occurred: list index out of range".

Definition lecture_url : string := "https://www.youtube.com/watch?v=lecture".

Definition no_files : files :=
  {| progress_json := None; academic_notes := None |}.

Definition talk_chunks : list string := ["Hello world. This is a test.."].

Definition quoted_notes : string :=
  "Python prints: An error occurred: division by zero".

(** The checkpoint after the first two chunks of the lecture, and the
    files of a run interrupted there. *)
Definition checkpoint_after_two : progress :=
  make_progress lecture_url lecture_chunks "Notes (bbbb.)" 2.

Definition interrupted_files : files :=
  {| progress_json := Some (Json checkpoint_after_two);
     academic_notes := None |}.

(** A checkpoint file cut short, and one whose record lost its notes. *)
Definition truncated_files : files :=
  {| progress_json :=
       Some (Unparsable "Expecting value: line 1 column 1 (char 0)");
     academic_notes := None |}.

Definition incomplete_record : progress :=
  {| video_url := Some lecture_url;
     transcript_chunks := Some lecture_chunks;
     notes := None;
     chunk_index := Some 2 |}.

Definition incomplete_files : files :=
  {| progress_json := Some (Json incomplete_record);
     academic_notes := None |}.

(** ** Notions for the text functions *)

(** [c in s] for a character. *)
Fixpoint has_char (c : ascii) (s : string) : bool :=
  match s with
  | EmptyString => false
  | String x rest => Ascii.eqb x c || has_char c rest
  end.

(** No lower-case letter is directly followed by an upper-case one: the
    pattern of [preprocess_transcript] has no match. *)
Fixpoint boundary_free (text : string) : bool :=
  match text with
  | EmptyString => true
  | String a rest =>
      match rest with
      | String b _ => negb (is_lower a && is_upper b) && boundary_free rest
      | EmptyString => true
      end
  end.



(** A group of sentences as [chunk_text] writes it into a chunk: each
    sentence followed by the delimiter. *)
Definition closed (group : list string) : string :=
  Chunker.join (map (fun sentence => sentence ++ ".") group).

(** ** The transcript service *)

Module Transcript.

(** An exception met by [get_transcript]: one of the class
    [NoTranscriptFound], or one of another class with the text [str(e)]. *)
Inductive exception : Type :=
| NoTranscriptFound (text : string)
| OtherError (text : string).

Inductive attempt (A : Type) : Type :=
| Return (value : A)
| Throw (e : exception).
Arguments Return {A} value.
Arguments Throw {A} e.

Definition and_then {A B} (a : attempt A) (k : A -> attempt B) : attempt B :=
  match a with
  | Return value => k value
  | Throw e => Throw e
  end.

Notation "x <~ a ;; k" := (and_then a (fun x => k))
  (at level 61, a at next level, right associativity).

(** A fetched snippet [d], by what [d['text']] does on it: it returns a
    text, or raises (a [KeyError] on a dictionary without the key, a
    [TypeError] on an object that cannot be indexed). *)
Definition snippet : Type := attempt string.

(** A transcript object, by what its [fetch()] does. *)
Definition transcript : Type := attempt (list snippet).

(** The object [ytt_api.list(video_id)] returns, by what
    [find_transcript(['en'])] does on it and by the transcripts it
    iterates over. *)
Record transcript_list : Type := {
  find_transcript_en : attempt transcript;
  available : list transcript
}.

(** [l[n]] *)
Definition item {A} (l : list A) (n : nat) : attempt A :=
  match nth_error l n with
  | Some x => Return x
  | None => Throw (OtherError "list index out of range")
  end.

Definition cons_head (c : ascii) (pieces : list string) : list string :=
  match pieces with
  | piece :: rest => String c piece :: rest
  | [] => [String c ""]
  end.

(** [s.split(sep)] for the two-character separator [a b]: cut at the
    matches found from the left, one not overlapping the other. *)
Fixpoint split2 (a b : ascii) (s : string) : list string :=
  match s with
  | EmptyString => [""]
  | String c rest =>
      match rest with
      | String d rest' =>
          if Ascii.eqb c a && Ascii.eqb d b then "" :: split2 a b rest'
          else cons_head c (split2 a b rest)
      | EmptyString => [String c ""]
      end
  end.

(** [video_url.split("v=")[1].split("&")[0]] *)
Definition video_id (video_url : string) : attempt string :=
  after <~ item (split2 "v" "=" video_url) 1 ;;
  item (split "&" after) 0.

(** [[d['text'] for d in fetched_transcript]] *)
Fixpoint texts (fetched : list snippet) : attempt (list string) :=
  match fetched with
  | [] => Return []
  | d :: rest =>
      match d with
      | Return text => others <~ texts rest ;; Return (text :: others)
      | Throw e => Throw e
      end
  end.

(** The body of the [try] of [get_transcript]; [list_transcripts] is
    [YouTubeTranscriptApi().list]. *)
Definition get_transcript_body
    (list_transcripts : string -> attempt transcript_list)
    (video_url : string) : attempt string :=
  id <~ video_id video_url ;;
  listed <~ list_transcripts id ;;
  chosen <~ match find_transcript_en listed with
            | Throw (NoTranscriptFound _) => item (available listed) 0
            | found => found
            end ;;
  fetched <~ chosen ;;
  parts <~ texts fetched ;;
  Return (String.concat " " parts).

(** [raise_NoTranscriptFound text] is the exception in which
    [raise NoTranscriptFound(text)] ends: the new [NoTranscriptFound], or
    the error of a constructor that does not take this one argument.
    Raised inside a handler, it leaves [get_transcript] as it is. *)
Definition get_transcript
    (raise_NoTranscriptFound : string -> exception)
    (list_transcripts : string -> attempt transcript_list)
    (video_url : string) : attempt string :=
  match get_transcript_body list_transcripts video_url with
  | Return transcript_text => Return transcript_text
  | Throw (NoTranscriptFound _) =>
      Throw (raise_NoTranscriptFound "No transcript found for this video.")
  | Throw (OtherError e) => Throw (OtherError ("An error occurred: " ++ e))
  end.

(** The function as [generate_notes] sees it: the exception by its text.
    The text of a [NoTranscriptFound] is the library's and is left to
    [str_NoTranscriptFound]. *)
Definition as_result (str_NoTranscriptFound : string -> string)
    (a : attempt string) : result string :=
  match a with
  | Return transcript_text => Ok transcript_text
  | Throw (NoTranscriptFound text) => Raise (str_NoTranscriptFound text)
  | Throw (OtherError text) => Raise text
  end.

End Transcript.

(** A transcript service that knows one video, which has no English
    transcript and whose snippets are objects that cannot be indexed; a
    constructor of [NoTranscriptFound] that wants more arguments; and
    URLs for the video. *)
Definition not_subscriptable : Transcript.snippet :=
  Transcript.Throw
    (Transcript.OtherError
       "'FetchedTranscriptSnippet' object is not subscriptable").

Definition talk_listed : Transcript.transcript_list :=
  {| Transcript.find_transcript_en :=
       Transcript.Throw (Transcript.NoTranscriptFound "en");
     Transcript.available :=
       [Transcript.Return [not_subscriptable; not_subscriptable]] |}.

Definition constructor_rejects (text : string) : Transcript.exception :=
  Transcript.OtherError "__init__() missing 2 required positional arguments".

Definition talk_service (id : string)
    : Transcript.attempt Transcript.transcript_list :=
  if String.eqb id "talk" then Transcript.Return talk_listed
  else Transcript.Throw (Transcript.OtherError "Video unavailable").

Definition talk_url : string := "https://www.youtube.com/watch?v=talk&t=42s".

Definition short_url : string := "https://youtu.be/talk".

Definition other_url : string := "https://www.youtube.com/watch?v=other".

(** ** The pipeline *)

Section Pipeline.

(** [os.environ.get("GEMINI_API_KEY")] *)
Variable GEMINI_API_KEY : option string.

(** [get_transcript(video_url)]: the transcript text, or the exception
    the transcript service ends in. *)
Variable get_transcript : string -> result string.

(** [model.generate_content(prompt).text] *)
Variable generate_content : string -> result string.

Definition get_gemini_api_key : result string :=
  match GEMINI_API_KEY with
  | Some api_key =>
      if str_truthy api_key then Ok api_key
      else Raise "GEMINI_API_KEY environment variable not set."
  | None => Raise "GEMINI_API_KEY environment variable not set."
  end.

(** The prompt built for the chunk at [current_chunk_index]. *)
Definition build_prompt (current_chunk_index : Z) (notes chunk : string)
    : string :=
  if current_chunk_index =? 0 then PROMPT_START ++ chunk
  else PROMPT_CONTINUE_format notes chunk.

(** The [for i, chunk in enumerate(transcript_chunks[start_chunk:])]
    loop; [current_chunk_index] is [start_chunk + i], [remaining] the part
    of the slice not yet visited.  The result is the returned notes, the
    files, and the events of the loop in order. *)
Fixpoint generation_loop (url : string) (chunks : list string)
    (current_chunk_index : Z) (remaining : list string)
    (document : string) (fs : files) : string * files * list event :=
  match remaining with
  | [] => (document, fs, [])
  | chunk :: rest =>
      let prompt := build_prompt current_chunk_index document chunk in
      match generate_content prompt with
      | Ok text =>
          let p := make_progress url chunks text (current_chunk_index + 1) in
          let '(returned, fs', events) :=
            generation_loop url chunks (current_chunk_index + 1) rest
              text (write_progress p fs) in
          (returned, fs', Generate current_chunk_index chunk :: Save p :: events)
      | Raise _ =>
          (document, fs, [Generate current_chunk_index chunk])
      end
  end.

(** The [else] branch of [if resume_data]: fetch, preprocess, chunk. *)
Definition fresh_job (url : string) : result (list string * string * Z) :=
  transcript <- get_transcript url ;;
  Ok (Chunker.chunk_text (preprocess_transcript transcript)
        Chunker.default_max_chunk_size, "", 0).

(** The job a run starts from: chunks, notes so far, first index.
    [resume_data] is [None] or a dictionary; an empty dictionary is as
    false as [None]. *)
Definition job_start (url : string) (resume_data : option progress)
    : result (list string * string * Z) :=
  match resume_data with
  | Some d =>
      if dict_truthy d then
        chunks <- get_item (transcript_chunks d) "transcript_chunks" ;;
        document <- get_item (notes d) "notes" ;;
        start_chunk <- get_item (chunk_index d) "chunk_index" ;;
        Ok (chunks, document, start_chunk)
      else fresh_job url
  | None => fresh_job url
  end.

(** The body of the outer [try] of [generate_notes]. *)
Definition generate_notes_body (url : string)
    (resume_data : option progress) (fs : files)
    : result (string * files * list event) :=
  _ <- get_gemini_api_key ;;
  job <- job_start url resume_data ;;
  let '(chunks, document, start_chunk) := job in
  Ok (generation_loop url chunks start_chunk (slice_from chunks start_chunk)
        document fs).

Definition generate_notes (url : string) (resume_data : option progress)
    (fs : files) : string * files * list event :=
  match generate_notes_body url resume_data fs with
  | Ok run => run
  | Raise e => ("An error occurred: " ++ e, fs, [])
  end.

(** *** [main] *)

Definition opt_truthy (video_url : option string) : bool :=
  match video_url with
  | Some url => str_truthy url
  | None => false
  end.

(** [input(...)] on a standard input holding the given lines. *)
Definition input (stdin : list string) : result string * list string :=
  match stdin with
  | line :: rest => (Ok line, rest)
  | [] => (Raise "EOF when reading a line", [])
  end.

(** The [while True] loop asking for (r)esume or (s)tart over. *)
Fixpoint ask_choice (stdin : list string) : result string * list string :=
  match stdin with
  | line :: rest =>
      let choice := lower line in
      if String.eqb choice "r" || String.eqb choice "s" then (Ok choice, rest)
      else ask_choice rest
  | [] => (Raise "EOF when reading a line", [])
  end.

(** How [main] ends: normally, with the files it leaves and the events of
    its call of [generate_notes], or by an exception nobody catches. *)
Inductive outcome : Type :=
| Finished (fs : files) (events : list event)
| Uncaught (message : string) (fs : files).

(** Lines 213 to 221: what [main] does with the returned notes. *)
Definition main_finish (returned : string) (fs : files) : files :=
  if negb (contains "An error occurred" returned)
  then {| progress_json := None; academic_notes := Some returned |}
  else fs.

(** Lines 208 to 221. *)
Definition main_generate (video_url : option string)
    (resume_data : option progress) (stdin : list string) (fs : files)
    : outcome :=
  let asked :=
    if negb (opt_truthy video_url) then fst (input stdin)
    else match video_url with
         | Some url => Ok url
         | None => Ok ""
         end in
  match asked with
  | Raise e => Uncaught e fs
  | Ok url =>
      let '(returned, fs', events) := generate_notes url resume_data fs in
      Finished (main_finish returned fs') events
  end.

Definition main (args_video_url : option string) (stdin : list string)
    (fs : files) : outcome :=
  match progress_json fs with
  | Some content =>
      match json_load content with
      | Raise e => Uncaught e fs
      | Ok d =>
          let same :=
            if negb (opt_truthy args_video_url) then Ok true
            else
              url <- get_item (video_url d) "video_url" ;;
              Ok (match args_video_url with
                  | Some given => String.eqb given url
                  | None => false
                  end) in
          match same with
          | Raise e => Uncaught e fs
          | Ok true =>
              match ask_choice stdin with
              | (Raise e, _) => Uncaught e fs
              | (Ok choice, stdin') =>
                  if String.eqb choice "r" then
                    match get_item (video_url d) "video_url" with
                    | Raise e => Uncaught e fs
                    | Ok url => main_generate (Some url) (Some d) stdin' fs
                    end
                  else
                    main_generate args_video_url None stdin'
                      (remove_progress fs)
              end
          | Ok false =>
              main_generate args_video_url None stdin (remove_progress fs)
          end
      end
  | None => main_generate args_video_url None stdin fs
  end.

(** *** Reference notions used by the statements *)

(** One Generation Step: the document that replaces [document] when the
    chunk at [index] is processed. *)
Definition generation_step (index : Z) (document chunk : string)
    : result string :=
  generate_content (build_prompt index document chunk).

(** The steps for [chunks], the first of them at [index], applied in
    order from [document]; [None] when one of them fails. *)
Fixpoint process_chunks (index : Z) (chunks : list string)
    (document : string) : option string :=
  match chunks with
  | [] => Some document
  | chunk :: rest =>
      match generation_step index document chunk with
      | Ok document' => process_chunks (index + 1) rest document'
      | Raise _ => None
      end
  end.

(** The Document produced by processing the chunks [[0, k)] of the
    sequence, starting from the empty document. *)
Definition document_after (chunks : list string) (k : nat) : option string :=
  process_chunks 0 (firstn k chunks) "".

(** The checkpoints a trace writes, in order. *)
Fixpoint saved (events : list event) : list progress :=
  match events with
  | [] => []
  | Save p :: rest => p :: saved rest
  | Generate _ _ :: rest => saved rest
  end.

(** The indices the model is called for, in order. *)
Fixpoint generated (events : list event) : list Z :=
  match events with
  | [] => []
  | Generate i _ :: rest => i :: generated rest
  | Save _ :: rest => generated rest
  end.

(** The last checkpoint a trace writes, if any. *)
Fixpoint last_saved (events : list event) : option progress :=
  match events with
  | [] => None
  | Save p :: rest =>
      match last_saved rest with
      | Some q => Some q
      | None => Some p
      end
  | Generate _ _ :: rest => last_saved rest
  end.

(** The checkpoint invariant: the next index is within the stored chunk
    sequence and the stored notes are the Document of the chunks before
    it. *)
Definition checkpoint_invariant (p : progress) : Prop :=
  match transcript_chunks p, notes p, chunk_index p with
  | Some chunks, Some document, Some next_index =>
      0 <= next_index <= Z.of_nat (length chunks)
      /\ document_after chunks (Z.to_nat next_index) = Some document
  | _, _, _ => False
  end.

(** A trace in which the model is called for the indices [i], [i + 1],
    ... of [chunks] one after the other, each successful call followed at
    once by the write of the checkpoint with the next index, and in which
    a failed call is the last event. *)
Inductive sequential (chunks : list string) : Z -> list event -> Prop :=
| sequential_end i : sequential chunks i []
| sequential_failed i chunk :
    nth_error chunks (Z.to_nat i) = Some chunk ->
    sequential chunks i [Generate i chunk]
| sequential_step i chunk p events :
    nth_error chunks (Z.to_nat i) = Some chunk ->
    chunk_index p = Some (i + 1) ->
    sequential chunks (i + 1) events ->
    sequential chunks i (Generate i chunk :: Save p :: events).

(** How a run of [generate_notes] on the chunk sequence [chunks] starts
    at index [k]: afresh, when the transcript chunks to [chunks]; or
    resumed from a checkpoint written after the chunks before [k]. *)
Inductive run_start (url : string) (chunks : list string)
    : option progress -> nat -> Prop :=
| start_fresh transcript :
    get_transcript url = Ok transcript ->
    Chunker.chunk_text (preprocess_transcript transcript)
      Chunker.default_max_chunk_size = chunks ->
    run_start url chunks None 0
| start_resume url0 k document :
    (k <= length chunks)%nat ->
    document_after chunks k = Some document ->
    run_start url chunks
      (Some (make_progress url0 chunks document (Z.of_nat k))) k.

(** The checkpoint file as [main] leaves it for [generate_notes]: absent
    for a fresh run, holding the record resumed from otherwise. *)
Definition store_matches (resume_data : option progress) (fs : files)
    : Prop :=
  progress_json fs = option_map Json resume_data.

(** The checkpoint file holds a record with these chunks, notes and next
    index. *)
Definition holds_checkpoint (fs : files) (chunks : list string)
    (document : string) (next_index : Z) : Prop :=
  exists url, progress_json fs
              = Some (Json (make_progress url chunks document next_index)).

(** The index at which a run stops is determined by the stub: it is the
    first index whose step fails, or the length of the sequence. *)
Definition stops_at (chunks : list string) (m : nat) (document : string)
    : Prop :=
  (m <= length chunks)%nat
  /\ document_after chunks m = Some document
  /\ ((m < length chunks)%nat -> document_after chunks (S m) = None).

(** Projections of the result of a run. *)
Definition returned_notes (run : string * files * list event) : string :=
  fst (fst run).

Definition final_files (run : string * files * list event) : files :=
  snd (fst run).

Definition trace (run : string * files * list event) : list event :=
  snd run.

(** One run followed by another: the notes and the files of the second,
    the events of both in order. *)
Definition then_run (first second : string * files * list event)
    : string * files * list event :=
  (returned_notes second, final_files second,
   (trace first ++ trace second)%list).

(** ** Properties of the generation loop *)

Lemma skipn_cons_inv {A} (l : list A) : forall k c rest,
  skipn k l = c :: rest ->
  nth_error l k = Some c /\ skipn (S k) l = rest
  /\ firstn (S k) l = (firstn k l ++ [c])%list /\ (k < length l)%nat.
Proof.
  induction l as [|a l IH]; intros k c rest H.
  - destruct k; discriminate.
  - destruct k as [|k].
    + simpl in H. injection H as -> ->. simpl. repeat split; lia.
    + simpl in H. destruct (IH _ _ _ H) as (Hn & Hs & Hf & Hl).
      repeat split; try assumption.
      * change (firstn (S (S k)) (a :: l)) with (a :: firstn (S k) l).
        rewrite Hf. reflexivity.
      * simpl. lia.
Qed.

Lemma process_chunks_app (pre post : list string) : forall i document,
  process_chunks i (pre ++ post) document
  = match process_chunks i pre document with
    | Some document' =>
        process_chunks (i + Z.of_nat (length pre)) post document'
    | None => None
    end.
Proof.
  induction pre as [|c pre IH]; intros i document; simpl.
  - replace (i + 0) with i by lia. reflexivity.
  - destruct (generation_step i document c) as [document'|e].
    + rewrite IH. replace (i + 1 + Z.of_nat (length pre))
        with (i + Z.pos (Pos.of_succ_nat (length pre))) by lia.
      reflexivity.
    + reflexivity.
Qed.

Lemma document_after_succ (chunks : list string) k c rest document :
  skipn k chunks = c :: rest ->
  document_after chunks k = Some document ->
  document_after chunks (S k)
  = match generation_step (Z.of_nat k) document c with
    | Ok document' => Some document'
    | Raise _ => None
    end.
Proof.
  intros Hs Hd. destruct (skipn_cons_inv _ _ _ _ Hs) as (_ & _ & Hf & Hl).
  unfold document_after in *. rewrite Hf, process_chunks_app, Hd.
  rewrite length_firstn, Nat.min_l by lia. simpl.
  destruct (generation_step (Z.of_nat k) document c); reflexivity.
Qed.

Lemma document_after_prefix (chunks : list string) : forall n k document,
  (k <= n)%nat ->
  document_after chunks n = Some document ->
  exists document', document_after chunks k = Some document'.
Proof.
  intros n k document Hle Hn. unfold document_after in *.
  rewrite <- (firstn_skipn k (firstn n chunks)) in Hn.
  rewrite firstn_firstn, Nat.min_l in Hn by lia.
  rewrite process_chunks_app in Hn.
  destruct (process_chunks 0 (firstn k chunks) "") as [document'|].
  - now exists document'.
  - discriminate.
Qed.

Lemma stops_at_unique (chunks : list string) m m' document document' :
  stops_at chunks m document -> stops_at chunks m' document' ->
  m = m' /\ document = document'.
Proof.
  intros (Hm & Hd & Hf) (Hm' & Hd' & Hf').
  assert (m = m') as <-.
  { destruct (Nat.lt_trichotomy m m') as [Hlt | [Heq | Hgt]]; [|assumption|].
    - destruct (document_after_prefix chunks m' (S m) document')
        as [x Hx]; [lia | assumption |].
      rewrite Hf in Hx by lia. discriminate.
    - destruct (document_after_prefix chunks m (S m') document)
        as [x Hx]; [lia | assumption |].
      rewrite Hf' in Hx by lia. discriminate. }
  split; [reflexivity|]. rewrite Hd in Hd'. now injection Hd'.
Qed.

(** Everything a run of the loop does, from a state in which [document]
    is the Document of the chunks before [k]. *)
Lemma generation_loop_run (url : string) (chunks : list string) :
  forall remaining k document fs run,
  (k <= length chunks)%nat ->
  skipn k chunks = remaining ->
  document_after chunks k = Some document ->
  run = generation_loop url chunks (Z.of_nat k) remaining document fs ->
  exists m,
    (k <= m)%nat
    /\ stops_at chunks m (returned_notes run)
    /\ progress_json (final_files run)
       = (if (m =? k)%nat then progress_json fs
          else Some (Json (make_progress url chunks (returned_notes run)
                             (Z.of_nat m))))
    /\ academic_notes (final_files run) = academic_notes fs
    /\ Forall checkpoint_invariant (saved (trace run))
    /\ sequential chunks (Z.of_nat k) (trace run)
    /\ generated (trace run)
       = map Z.of_nat
           (seq k (if (m <? length chunks)%nat then S m - k else m - k))
    /\ map chunk_index (saved (trace run))
       = map (fun j => Some (Z.of_nat j)) (seq (S k) (m - k)).
Proof.
  induction remaining as [|c rest IH]; intros k document fs run Hk Hs Hd ->.
  - assert (k = length chunks) as ->.
    { apply (f_equal (@length string)) in Hs. rewrite length_skipn in Hs.
      simpl in Hs. lia. }
    exists (length chunks). simpl. unfold stops_at.
    rewrite Nat.eqb_refl, Nat.ltb_irrefl, Nat.sub_diag. simpl.
    repeat split; try lia; try assumption; constructor.
  - destruct (skipn_cons_inv _ _ _ _ Hs) as (Hn & Hs' & _ & Hl).
    pose proof (document_after_succ _ _ _ _ _ Hs Hd) as Hsucc.
    cbn [generation_loop]. unfold generation_step in Hsucc.
    destruct (generate_content (build_prompt (Z.of_nat k) document c))
      as [text|e].
    + replace (Z.of_nat k + 1) with (Z.of_nat (S k)) by lia.
      set (p := make_progress url chunks text (Z.of_nat (S k))).
      destruct (IH (S k) text (write_progress p fs) _ Hl Hs' Hsucc eq_refl)
        as (m & Hm & Hstop & Hp & Ha & Hinv & Hseq & Hgen & Hsav).
      destruct (generation_loop url chunks (Z.of_nat (S k)) rest text
                  (write_progress p fs)) as [[r fs'] events].
      unfold returned_notes, final_files, trace in *.
      cbn [fst snd saved generated map] in *.
      exists m. split; [lia|]. split; [assumption|].
      assert ((m =? k)%nat = false) as -> by (apply Nat.eqb_neq; lia).
      repeat split.
      * destruct (m =? S k)%nat eqn:E; [|assumption].
        apply Nat.eqb_eq in E. subst m. rewrite Hp. unfold p.
        destruct Hstop as (_ & Hr & _). cbn [write_progress progress_json].
        congruence.
      * assumption.
      * constructor; [|assumption]. unfold checkpoint_invariant, p.
        cbn [make_progress transcript_chunks notes chunk_index].
        rewrite Nat2Z.id. split; [lia | assumption].
      * apply sequential_step.
        -- rewrite Nat2Z.id. assumption.
        -- unfold p. cbn [make_progress chunk_index]. f_equal. lia.
        -- replace (Z.of_nat k + 1) with (Z.of_nat (S k)) by lia. assumption.
      * rewrite Hgen. destruct (m <? length chunks)%nat.
        -- replace (S m - k)%nat with (S (S m - S k)) by lia. reflexivity.
        -- replace (m - k)%nat with (S (m - S k)) by lia. reflexivity.
      * rewrite Hsav. replace (m - k)%nat with (S (m - S k)) by lia.
        unfold p. reflexivity.
    + exists k. unfold returned_notes, final_files, trace, stops_at.
      cbn [fst snd saved generated map].
      rewrite Nat.eqb_refl, Nat.sub_diag.
      assert ((k <? length chunks)%nat = true) as ->
        by (apply Nat.ltb_lt; lia).
      replace (S k - k)%nat with 1%nat by lia.
      repeat split; try lia; try assumption; try constructor.
      * intros _. exact Hsucc.
      * rewrite Nat2Z.id. assumption.
Qed.

Lemma slice_from_nat {A} (l : list A) (k : nat) :
  slice_from l (Z.of_nat k) = skipn k l.
Proof.
  unfold slice_from.
  assert ((Z.of_nat k <? 0) = false) as -> by (apply Z.ltb_ge; lia).
  rewrite Nat2Z.id. reflexivity.
Qed.

Lemma document_after_0 (chunks : list string) :
  document_after chunks 0 = Some "".
Proof. reflexivity. Qed.

(** With the API key set, a run started by [main] is the loop from the
    start index on the rest of the sequence. *)
Lemma generate_notes_is_loop url chunks resume_data fs k key :
  get_gemini_api_key = Ok key ->
  run_start url chunks resume_data k ->
  exists document,
    (k <= length chunks)%nat
    /\ document_after chunks k = Some document
    /\ generate_notes url resume_data fs
       = generation_loop url chunks (Z.of_nat k) (skipn k chunks) document fs.
Proof.
  intros Hkey Hstart. unfold generate_notes, generate_notes_body.
  rewrite Hkey. cbn [bind].
  destruct Hstart as [transcript Ht Hc | url0 k document Hk Hd].
  - exists "". split; [lia|]. split; [apply document_after_0|].
    cbn [job_start]. unfold fresh_job. rewrite Ht. cbn [bind]. rewrite Hc.
    reflexivity.
  - exists document. split; [assumption|]. split; [assumption|].
    cbn. rewrite slice_from_nat. reflexivity.
Qed.

(** Without the API key nothing runs. *)
Lemma generate_notes_no_key url resume_data fs e :
  get_gemini_api_key = Raise e ->
  generate_notes url resume_data fs = ("An error occurred: " ++ e, fs, []).
Proof.
  intros H. unfold generate_notes, generate_notes_body. rewrite H.
  reflexivity.
Qed.

(** C1. Resumption correctness: resuming from the checkpoint written
    after the chunks before [k] and completing the remaining chunks
    returns the same notes as the run of the whole job from index 0 with
    the same stub, be that run started from an index-0 record or afresh
    from a transcript that chunks to the same sequence; with the API key
    set these notes are the Document of all the chunks. *)
Theorem resumption_correctness
    (url url0 url1 : string) (chunks : list string) (k : nat)
    (document_k document_n : string) (fs fs0 : files) :
  (k <= length chunks)%nat ->
  document_after chunks k = Some document_k ->
  document_after chunks (length chunks) = Some document_n ->
  returned_notes
    (generate_notes url
       (Some (make_progress url0 chunks document_k (Z.of_nat k))) fs)
  = returned_notes
      (generate_notes url (Some (make_progress url1 chunks "" 0)) fs0)
  /\ (forall transcript,
        get_transcript url = Ok transcript ->
        Chunker.chunk_text (preprocess_transcript transcript)
          Chunker.default_max_chunk_size = chunks ->
        returned_notes
          (generate_notes url
             (Some (make_progress url0 chunks document_k (Z.of_nat k))) fs)
        = returned_notes (generate_notes url None fs0))
  /\ (forall key,
        get_gemini_api_key = Ok key ->
        returned_notes
          (generate_notes url
             (Some (make_progress url0 chunks document_k (Z.of_nat k))) fs)
        = document_n).
Proof.
  intros Hk Hdk Hdn.
  assert (Hall : stops_at chunks (length chunks) document_n)
    by (repeat split; [lia | assumption | lia]).
  destruct get_gemini_api_key as [key|e] eqn:Hkey.
  - assert (Hres : returned_notes
      (generate_notes url
         (Some (make_progress url0 chunks document_k (Z.of_nat k))) fs)
      = document_n).
    { unfold generate_notes, generate_notes_body. rewrite Hkey. cbn.
      rewrite slice_from_nat.
      destruct (generation_loop_run url chunks _ k document_k fs _
                  Hk eq_refl Hdk eq_refl) as (m & _ & Hstop & _).
      apply (stops_at_unique _ _ _ _ _ Hstop Hall). }
    assert (Hzero : forall u f,
      returned_notes (generation_loop u chunks 0 chunks "" f) = document_n).
    { intros u f.
      destruct (generation_loop_run u chunks _ 0%nat "" f _
                  (Nat.le_0_l _) eq_refl (document_after_0 _) eq_refl)
        as (m & _ & Hstop & _).
      apply (stops_at_unique _ _ _ _ _ Hstop Hall). }
    rewrite Hres. repeat split.
    + unfold generate_notes, generate_notes_body. rewrite Hkey. cbn.
      symmetry. apply (Hzero url fs0).
    + intros transcript Ht Hc.
      unfold generate_notes, generate_notes_body. rewrite Hkey.
      cbn [bind job_start]. unfold fresh_job. rewrite Ht. cbn [bind].
      rewrite Hc. symmetry. apply (Hzero url fs0).
  - rewrite !(generate_notes_no_key _ _ _ _ Hkey).
    repeat split; intros; try reflexivity; discriminate.
Qed.

(** *** The caller *)

(** The text [generate_notes] returns for an exception is recognised as
    an error by [main]. *)
Lemma error_text_marked (e : string) :
  contains "An error occurred" ("An error occurred: " ++ e) = true.
Proof. reflexivity. Qed.

(** With a URL in hand, [main] calls [generate_notes] and files the
    result. *)
Lemma main_generate_with_url url resume_data stdin fs :
  str_truthy url = true ->
  main_generate (Some url) resume_data stdin fs
  = Finished
      (main_finish (returned_notes (generate_notes url resume_data fs))
         (final_files (generate_notes url resume_data fs)))
      (trace (generate_notes url resume_data fs)).
Proof.
  intros Hurl. unfold main_generate. cbn [opt_truthy]. rewrite Hurl.
  cbn [negb]. destruct (generate_notes url resume_data fs) as [[r f] ev].
  reflexivity.
Qed.

Lemma nth_error_skipn {A} (l : list A) : forall i c,
  nth_error l i = Some c -> skipn i l = c :: skipn (S i) l.
Proof.
  induction l as [|a l IH]; intros [|i] c H; try discriminate.
  - injection H as ->. reflexivity.
  - apply (IH i c H).
Qed.

(** A step that fails after [i] successful ones is where the run stops. *)
Lemma failure_stops (chunks : list string) i document chunk e :
  document_after chunks i = Some document ->
  nth_error chunks i = Some chunk ->
  generation_step (Z.of_nat i) document chunk = Raise e ->
  stops_at chunks i document.
Proof.
  intros Hd Hn Hf.
  assert (Hl : (i < length chunks)%nat)
    by (apply nth_error_Some; congruence).
  repeat split; [lia | assumption |]. intros _.
  rewrite (document_after_succ _ _ _ _ _ (nth_error_skipn _ _ _ Hn) Hd), Hf.
  reflexivity.
Qed.

(** C2. Partial failure: when the steps for the chunks before [i] succeed
    and the step for chunk [i] fails, the run returns the Document as of
    chunk [i - 1] (the empty one when [i = 0] in a fresh run); the model
    has been called for the indices from the start index to [i]; the
    checkpoints written are those with the next indices up to [i], none
    for the failed attempt; and the checkpoint file holds the record with
    that Document and next index [i], or is still absent when a fresh run
    fails at index 0 and no checkpoint was ever saved. *)
Theorem partial_failure
    (url : string) (chunks : list string) (resume_data : option progress)
    (fs : files) (k i : nat) (document chunk e key : string) :
  get_gemini_api_key = Ok key ->
  run_start url chunks resume_data k ->
  store_matches resume_data fs ->
  (k <= i)%nat ->
  document_after chunks i = Some document ->
  nth_error chunks i = Some chunk ->
  generation_step (Z.of_nat i) document chunk = Raise e ->
  returned_notes (generate_notes url resume_data fs) = document
  /\ generated (trace (generate_notes url resume_data fs))
     = map Z.of_nat (seq k (S i - k))
  /\ map chunk_index (saved (trace (generate_notes url resume_data fs)))
     = map (fun j => Some (Z.of_nat j)) (seq (S k) (i - k))
  /\ match resume_data, i with
     | None, O =>
         progress_json (final_files (generate_notes url resume_data fs))
         = None
     | _, _ =>
         holds_checkpoint (final_files (generate_notes url resume_data fs))
           chunks document (Z.of_nat i)
     end.
Proof.
  intros Hkey Hstart Hfs Hki Hd Hn Hf.
  pose proof (failure_stops _ _ _ _ _ Hd Hn Hf) as Hstop.
  destruct (generate_notes_is_loop _ _ _ fs _ _ Hkey Hstart)
    as (document_k & Hk & Hdk & ->).
  destruct (generation_loop_run url chunks _ k document_k fs _
              Hk eq_refl Hdk eq_refl)
    as (m & Hkm & Hm & Hp & _ & _ & _ & Hgen & Hsav).
  destruct (stops_at_unique _ _ _ _ _ Hm Hstop) as [-> Hr].
  assert (Hl : (i < length chunks)%nat)
    by (apply nth_error_Some; congruence).
  apply Nat.ltb_lt in Hl. rewrite Hl in Hgen.
  repeat split; try assumption.
  unfold holds_checkpoint. rewrite Hp, Hr. unfold store_matches in Hfs.
  destruct (i =? k)%nat eqn:E.
  - apply Nat.eqb_eq in E. subst i. rewrite Hfs.
    destruct Hstart as [transcript _ _ | url0 k document' _ Hd'].
    + reflexivity.
    + replace document' with document by congruence.
      destruct k; exists url0; reflexivity.
  - apply Nat.eqb_neq in E.
    destruct resume_data, i; try (exists url; reflexivity).
    inversion Hstart; subst; lia.
Qed.

(** X16. What [main] then does with the notes of such a run: when they
    do not contain the text it looks for, they are filed as the result
    and the checkpoint file is removed. *)
Remark partial_notes_filed_as_complete
    (url : string) (chunks : list string) (resume_data : option progress)
    (stdin : list string) (fs : files) (k i : nat)
    (document chunk e key : string) :
  get_gemini_api_key = Ok key ->
  str_truthy url = true ->
  run_start url chunks resume_data k ->
  (k <= i)%nat ->
  document_after chunks i = Some document ->
  nth_error chunks i = Some chunk ->
  generation_step (Z.of_nat i) document chunk = Raise e ->
  contains "An error occurred" document = false ->
  main_generate (Some url) resume_data stdin fs
  = Finished {| progress_json := None; academic_notes := Some document |}
      (trace (generate_notes url resume_data fs)).
Proof.
  intros Hkey Hurl Hstart Hki Hd Hn Hf Hclean.
  rewrite (main_generate_with_url _ _ _ _ Hurl).
  assert (Hr : returned_notes (generate_notes url resume_data fs) = document).
  { pose proof (failure_stops _ _ _ _ _ Hd Hn Hf) as Hstop.
    destruct (generate_notes_is_loop _ _ _ fs _ _ Hkey Hstart)
      as (document_k & Hk & Hdk & ->).
    destruct (generation_loop_run url chunks _ k document_k fs _
                Hk eq_refl Hdk eq_refl) as (m & _ & Hm & _).
    apply (stops_at_unique _ _ _ _ _ Hm Hstop). }
  rewrite Hr. unfold main_finish. rewrite Hclean. reflexivity.
Qed.


(** The loop over a sequence is the loop over its first part, all of
    whose steps succeed, followed by the loop over the rest, started in
    the files the first part leaves. *)
Lemma generation_loop_app (url : string) (chunks : list string)
    (post : list string) :
  forall pre i document fs document',
  process_chunks i pre document = Some document' ->
  generation_loop url chunks i (pre ++ post) document fs
  = then_run (generation_loop url chunks i pre document fs)
      (generation_loop url chunks (i + Z.of_nat (length pre)) post document'
         (final_files (generation_loop url chunks i pre document fs))).
Proof.
  induction pre as [|chunk pre IH]; intros i document fs document' H.
  - cbn [process_chunks] in H. injection H as <-.
    cbn [app length generation_loop Z.of_nat]. rewrite Z.add_0_r.
    unfold then_run, returned_notes, final_files, trace. cbn [fst snd app].
    destruct (generation_loop url chunks i post document fs) as [[r f] ev].
    reflexivity.
  - cbn [process_chunks] in H. unfold generation_step in H.
    cbn [app generation_loop].
    destruct (generate_content (build_prompt i document chunk))
      as [text|e]; [|discriminate].
    rewrite (IH _ _ _ _ H).
    replace (i + Z.of_nat (length (chunk :: pre)))
      with (i + 1 + Z.of_nat (length pre))
      by (cbn [length]; rewrite Nat2Z.inj_succ; lia).
    destruct (generation_loop url chunks (i + 1) pre text _)
      as [[r0 f0] ev0].
    unfold then_run, returned_notes, final_files, trace. cbn [fst snd].
    reflexivity.
Qed.

(** After a non-empty part all of whose steps succeed, the checkpoint
    file holds the record of the last of them. *)
Lemma generation_loop_leaves_checkpoint (url : string)
    (chunks : list string) :
  forall pre i document fs document',
  pre <> [] ->
  process_chunks i pre document = Some document' ->
  progress_json (final_files (generation_loop url chunks i pre document fs))
  = Some (Json (make_progress url chunks document'
                  (i + Z.of_nat (length pre)))).
Proof.
  induction pre as [|chunk pre IH]; intros i document fs document' Hne H;
    [congruence|].
  cbn [process_chunks] in H. unfold generation_step in H.
  cbn [generation_loop].
  destruct (generate_content (build_prompt i document chunk))
    as [text|e]; [|discriminate].
  replace (i + Z.of_nat (length (chunk :: pre)))
    with (i + 1 + Z.of_nat (length pre))
    by (cbn [length]; rewrite Nat2Z.inj_succ; lia).
  destruct pre as [|next pre].
  - cbn [process_chunks] in H. injection H as <-.
    cbn [generation_loop final_files fst snd length Z.of_nat].
    rewrite Z.add_0_r. reflexivity.
  - specialize (IH (i + 1) text
      (write_progress (make_progress url chunks text (i + 1)) fs)
      document' ltac:(discriminate) H).
    destruct (generation_loop url chunks (i + 1) (next :: pre) text _)
      as [[r0 f0] ev0].
    unfold final_files in *. cbn [fst snd] in *. exact IH.
Qed.

(** The chunks from [k] on are those from [k] up to [j], then those from
    [j] on; the Document after [j] chunks is the one after [k] carried
    through the chunks between. *)
Lemma chunks_between (chunks : list string) (k j : nat) document_k document_j :
  (k <= j <= length chunks)%nat ->
  document_after chunks k = Some document_k ->
  document_after chunks j = Some document_j ->
  skipn k chunks = (firstn (j - k) (skipn k chunks) ++ skipn j chunks)%list
  /\ length (firstn (j - k) (skipn k chunks)) = (j - k)%nat
  /\ process_chunks (Z.of_nat k) (firstn (j - k) (skipn k chunks)) document_k
     = Some document_j.
Proof.
  intros Hkj Hk Hj. split; [|split].
  - rewrite <- (firstn_skipn (j - k) (skipn k chunks)) at 1.
    rewrite skipn_skipn. replace (j - k + k)%nat with j by lia. reflexivity.
  - rewrite length_firstn, length_skipn. lia.
  - unfold document_after in *.
    assert (Hsplit : firstn j chunks
                     = (firstn k chunks
                        ++ firstn (j - k) (skipn k chunks))%list).
    { rewrite <- (firstn_skipn k (firstn j chunks)).
      rewrite firstn_firstn, Nat.min_l by lia.
      rewrite skipn_firstn_comm. reflexivity. }
    rewrite Hsplit, process_chunks_app, Hk in Hj.
    rewrite length_firstn, Nat.min_l in Hj by lia. exact Hj.
Qed.

(** C4. Ordering: the model is called for the chunks at the resume index,
    the next index, and so on, none skipped and none repeated, up to the
    first index whose step fails or else to the last chunk; after each
    successful call the checkpoint with the next index is written before
    the next call.  For every index [j] reached after the first, the run
    is the loop over the chunks before [j] followed by the loop from [j]
    on, and the files in which step [j] begins hold the checkpoint with
    next index [j] and the Document of the chunks before [j]. *)
Theorem steps_in_order
    (url : string) (chunks : list string) (resume_data : option progress)
    (fs : files) (k : nat) (key : string) :
  get_gemini_api_key = Ok key ->
  run_start url chunks resume_data k ->
  exists m document_k,
    (k <= m)%nat
    /\ stops_at chunks m (returned_notes (generate_notes url resume_data fs))
    /\ document_after chunks k = Some document_k
    /\ generated (trace (generate_notes url resume_data fs))
       = map Z.of_nat
           (seq k (if (m <? length chunks)%nat then S m - k else m - k))
    /\ sequential chunks (Z.of_nat k)
         (trace (generate_notes url resume_data fs))
    /\ forall j, (k < j <= m)%nat ->
       exists document_j,
         document_after chunks j = Some document_j
         /\ progress_json
              (final_files
                 (generation_loop url chunks (Z.of_nat k)
                    (firstn (j - k) (skipn k chunks)) document_k fs))
            = Some (Json (make_progress url chunks document_j (Z.of_nat j)))
         /\ generate_notes url resume_data fs
            = then_run
                (generation_loop url chunks (Z.of_nat k)
                   (firstn (j - k) (skipn k chunks)) document_k fs)
                (generation_loop url chunks (Z.of_nat j) (skipn j chunks)
                   document_j
                   (final_files
                      (generation_loop url chunks (Z.of_nat k)
                         (firstn (j - k) (skipn k chunks)) document_k fs))).
Proof.
  intros Hkey Hstart.
  destruct (generate_notes_is_loop _ _ _ fs _ _ Hkey Hstart)
    as (document_k & Hk & Hdk & Hloop).
  destruct (generation_loop_run url chunks _ k document_k fs _
              Hk eq_refl Hdk eq_refl)
    as (m & Hkm & Hstop & _ & _ & _ & Hseq & Hgen & _).
  rewrite <- Hloop in Hstop, Hseq, Hgen.
  exists m, document_k.
  split; [exact Hkm|]. split; [exact Hstop|]. split; [exact Hdk|].
  split; [exact Hgen|]. split; [exact Hseq|].
  intros j Hj. pose proof Hstop as (Hm & Hdm & _).
  destruct (document_after_prefix chunks m j _ ltac:(lia) Hdm)
    as [document_j Hdj].
  destruct (chunks_between chunks k j document_k document_j
              ltac:(lia) Hdk Hdj) as (Hsplit & Hlen & Hpre).
  exists document_j. split; [exact Hdj|]. split.
  - rewrite (generation_loop_leaves_checkpoint url chunks _ _ _ fs _
               ltac:(intros E; rewrite E in Hlen; cbn in Hlen; lia) Hpre).
    rewrite Hlen. do 3 f_equal. lia.
  - rewrite Hloop. rewrite Hsplit at 1.
    rewrite (generation_loop_app url chunks _ _ _ _ fs _ Hpre).
    rewrite Hlen. replace (Z.of_nat k + Z.of_nat (j - k)) with (Z.of_nat j)
      by lia. reflexivity.
Qed.

(** C5, as the code has it. Completion: when the step succeeds for every
    chunk through the last one, [generate_notes] returns the Document of
    all the chunks; and provided that Document does not contain the text
    "An error occurred", [main] writes it to the output file and leaves
    no checkpoint record. *)
Theorem completion
    (url : string) (chunks : list string) (resume_data : option progress)
    (stdin : list string) (fs : files) (k : nat) (document key : string) :
  get_gemini_api_key = Ok key ->
  str_truthy url = true ->
  run_start url chunks resume_data k ->
  document_after chunks (length chunks) = Some document ->
  returned_notes (generate_notes url resume_data fs) = document
  /\ (contains "An error occurred" document = false ->
      main_generate (Some url) resume_data stdin fs
      = Finished {| progress_json := None; academic_notes := Some document |}
          (trace (generate_notes url resume_data fs))).
Proof.
  intros Hkey Hurl Hstart Hd.
  assert (Hr : returned_notes (generate_notes url resume_data fs) = document).
  { destruct (generate_notes_is_loop _ _ _ fs _ _ Hkey Hstart)
      as (document_k & Hk & Hdk & ->).
    destruct (generation_loop_run url chunks _ k document_k fs _
                Hk eq_refl Hdk eq_refl) as (m & _ & Hstop & _).
    refine (proj2 (stops_at_unique _ _ (length chunks) _ _ Hstop _)).
    repeat split; [lia | assumption | lia]. }
  split; [exact Hr|]. intros Hclean.
  rewrite (main_generate_with_url _ _ _ _ Hurl), Hr.
  unfold main_finish. rewrite Hclean. reflexivity.
Qed.

(** C6, as the code has it. A checkpoint record that does not decode
    ends [main] with the decoding error, uncaught, the files as they
    were.  A record that decodes but lacks keys is handled as any record
    is.  Without its [video_url] it ends [main] with the uncaught
    [KeyError] as soon as a URL was given or the user chooses to resume.
    With its [video_url] but without the chunks, the notes or the index,
    once resumed, it makes [generate_notes] return its error text:
    nothing is generated and the files stay as they were.  [main] removes
    the record and starts afresh when a URL other than its [video_url]
    was given, and when the user answers s. *)
Theorem corrupt_checkpoint_not_degraded
    (args_video_url : option string) (stdin : list string) (fs : files)
    (content : stored) :
  progress_json fs = Some content ->
  (forall error,
     content = Unparsable error ->
     main args_video_url stdin fs = Uncaught error fs)
  /\ (forall d,
        content = Json d -> video_url d = None ->
        opt_truthy args_video_url = true ->
        main args_video_url stdin fs = Uncaught (KeyError "video_url") fs)
  /\ (forall d rest,
        content = Json d -> video_url d = None ->
        ask_choice stdin = (Ok "r", rest) ->
        main args_video_url stdin fs = Uncaught (KeyError "video_url") fs)
  /\ (forall d url rest,
        content = Json d -> video_url d = Some url ->
        str_truthy url = true ->
        args_video_url = None \/ args_video_url = Some url ->
        ask_choice stdin = (Ok "r", rest) ->
        transcript_chunks d = None \/ notes d = None \/ chunk_index d = None ->
        main args_video_url stdin fs = Finished fs [])
  /\ (forall d stored given,
        content = Json d -> video_url d = Some stored ->
        args_video_url = Some given -> str_truthy given = true ->
        given <> stored ->
        main args_video_url stdin fs
        = main_generate args_video_url None stdin (remove_progress fs))
  /\ (forall d rest,
        content = Json d ->
        opt_truthy args_video_url = false
        \/ (exists url, video_url d = Some url /\ args_video_url = Some url) ->
        ask_choice stdin = (Ok "s", rest) ->
        main args_video_url stdin fs
        = main_generate args_video_url None rest (remove_progress fs)).
Proof.
  intros Hfs. unfold main. rewrite Hfs.
  split; [|split; [|split; [|split; [|split]]]].
  - intros error ->. reflexivity.
  - intros d -> Hd Hargs. cbn [json_load]. rewrite Hargs, Hd. reflexivity.
  - intros d rest -> Hd Hask. cbn [json_load]. rewrite Hd.
    destruct (opt_truthy args_video_url); cbn; [reflexivity|].
    rewrite Hask. reflexivity.
  - intros d url rest -> Hd Hurl Hargs Hask Hmissing. cbn [json_load].
    rewrite Hd.
    assert (Hsame : (if negb (opt_truthy args_video_url) then Ok true
                     else url0 <- get_item (Some url) "video_url" ;;
                          Ok match args_video_url with
                             | Some given => String.eqb given url0
                             | None => false
                             end) = Ok true).
    { destruct Hargs as [-> | ->]; cbn; [reflexivity|].
      rewrite Hurl. cbn. rewrite String.eqb_refl. reflexivity. }
    rewrite Hsame, Hask. cbn [String.eqb Ascii.eqb Bool.eqb get_item].
    rewrite (main_generate_with_url _ _ _ _ Hurl).
    assert (Hraise : exists e, generate_notes url (Some d) fs
                               = ("An error occurred: " ++ e, fs, [])).
    { unfold generate_notes, generate_notes_body.
      destruct get_gemini_api_key as [key|e]; cbn [bind];
        [|eexists; reflexivity].
      unfold job_start, dict_truthy. rewrite Hd.
      destruct (transcript_chunks d), (notes d), (chunk_index d);
        cbn; try (eexists; reflexivity).
      destruct Hmissing as [H | [H | H]]; discriminate. }
    destruct Hraise as [e ->]. unfold returned_notes, final_files, trace.
    cbn [fst snd]. unfold main_finish. rewrite error_text_marked. reflexivity.
  - intros d stored given -> Hd -> Hgiven Hneq. cbn [json_load opt_truthy].
    rewrite Hgiven, Hd. cbn [negb get_item bind].
    apply String.eqb_neq in Hneq. rewrite Hneq. reflexivity.
  - intros d rest -> Hargs Hask. cbn [json_load].
    assert (Hsame : (if negb (opt_truthy args_video_url) then Ok true
                     else url0 <- get_item (video_url d) "video_url" ;;
                          Ok match args_video_url with
                             | Some given => String.eqb given url0
                             | None => false
                             end) = Ok true).
    { destruct Hargs as [-> | (url & -> & ->)]; [reflexivity|].
      destruct (negb (opt_truthy (Some url))); [reflexivity|].
      cbn. rewrite String.eqb_refl. reflexivity. }
    rewrite Hsame, Hask. reflexivity.
Qed.

(** C10. In-band error signalling: when the body of [generate_notes]
    raises, the function returns "An error occurred: " followed by the
    text of the exception, having written nothing; a missing API key and a
    failing transcript fetch are such cases.  [main] tells failure from
    success by that text alone: returned notes that contain it are not
    written to the output file and the files, the checkpoint record among
    them, stay as [generate_notes] left them; returned notes that do not
    contain it are written to the output file and the checkpoint record
    is removed.  The first holds as well for the Document of a run all of
    whose steps succeeded. *)
Theorem in_band_error_signalling
    (url : string) (resume_data : option progress) (stdin : list string)
    (fs : files) :
  str_truthy url = true ->
  (forall e,
     generate_notes_body url resume_data fs = Raise e ->
     generate_notes url resume_data fs = ("An error occurred: " ++ e, fs, [])
     /\ main_generate (Some url) resume_data stdin fs = Finished fs [])
  /\ (GEMINI_API_KEY = None ->
      generate_notes_body url resume_data fs
      = Raise "GEMINI_API_KEY environment variable not set.")
  /\ (forall key e,
        get_gemini_api_key = Ok key -> resume_data = None ->
        get_transcript url = Raise e ->
        generate_notes_body url resume_data fs = Raise e)
  /\ (contains "An error occurred"
        (returned_notes (generate_notes url resume_data fs)) = true ->
      main_generate (Some url) resume_data stdin fs
      = Finished (final_files (generate_notes url resume_data fs))
          (trace (generate_notes url resume_data fs)))
  /\ (contains "An error occurred"
        (returned_notes (generate_notes url resume_data fs)) = false ->
      main_generate (Some url) resume_data stdin fs
      = Finished
          {| progress_json := None;
             academic_notes :=
               Some (returned_notes (generate_notes url resume_data fs)) |}
          (trace (generate_notes url resume_data fs)))
  /\ (forall chunks k key document,
        get_gemini_api_key = Ok key ->
        run_start url chunks resume_data k ->
        document_after chunks (length chunks) = Some document ->
        contains "An error occurred" document = true ->
        exists fs',
          main_generate (Some url) resume_data stdin fs
          = Finished fs' (trace (generate_notes url resume_data fs))
          /\ academic_notes fs' = academic_notes fs
          /\ progress_json fs'
             = if (length chunks =? k)%nat then progress_json fs
               else Some (Json (make_progress url chunks document
                                  (Z.of_nat (length chunks))))).
Proof.
  intros Hurl.
  assert (Hmarked : contains "An error occurred"
            (returned_notes (generate_notes url resume_data fs)) = true ->
          main_generate (Some url) resume_data stdin fs
          = Finished (final_files (generate_notes url resume_data fs))
              (trace (generate_notes url resume_data fs))).
  { intros H. rewrite (main_generate_with_url _ _ _ _ Hurl).
    unfold main_finish. rewrite H. reflexivity. }
  split; [|split; [|split; [|split; [|split]]]].
  - intros e He.
    assert (Hg : generate_notes url resume_data fs
                 = ("An error occurred: " ++ e, fs, []))
      by (unfold generate_notes; rewrite He; reflexivity).
    split; [exact Hg|]. rewrite Hmarked; rewrite Hg; [reflexivity|].
    apply error_text_marked.
  - intros Hnone. unfold generate_notes_body, get_gemini_api_key.
    rewrite Hnone. reflexivity.
  - intros key e Hkey -> Ht. unfold generate_notes_body.
    rewrite Hkey. cbn [bind job_start]. unfold fresh_job. rewrite Ht.
    reflexivity.
  - exact Hmarked.
  - intros H. rewrite (main_generate_with_url _ _ _ _ Hurl).
    unfold main_finish. rewrite H. reflexivity.
  - intros chunks k key document Hkey Hstart Hd Hc.
    destruct (generate_notes_is_loop _ _ _ fs _ _ Hkey Hstart)
      as (document_k & Hk & Hdk & Hloop).
    destruct (generation_loop_run url chunks _ k document_k fs _
                Hk eq_refl Hdk eq_refl)
      as (m & _ & Hstop & Hp & Ha & _).
    rewrite <- Hloop in Hstop, Hp, Ha.
    assert (Hall : stops_at chunks (length chunks) document)
      by (repeat split; [lia | assumption | lia]).
    destruct (stops_at_unique _ _ _ _ _ Hstop Hall) as [-> Hr].
    exists (final_files (generate_notes url resume_data fs)).
    split; [apply Hmarked; rewrite Hr; exact Hc|].
    split; [exact Ha|]. rewrite Hp, Hr. reflexivity.
Qed.

(** How [main] reaches its call of [generate_notes]. *)

Lemma main_without_checkpoint args_video_url stdin fs :
  progress_json fs = None ->
  main args_video_url stdin fs = main_generate args_video_url None stdin fs.
Proof. intros H. unfold main. rewrite H. reflexivity. Qed.

Lemma main_resumes args_video_url stdin rest fs d url :
  progress_json fs = Some (Json d) ->
  video_url d = Some url ->
  str_truthy url = true ->
  args_video_url = None \/ args_video_url = Some url ->
  ask_choice stdin = (Ok "r", rest) ->
  main args_video_url stdin fs = main_generate (Some url) (Some d) rest fs.
Proof.
  intros Hfs Hd Hurl Hargs Hask. unfold main. rewrite Hfs.
  cbn [json_load]. rewrite Hd.
  destruct Hargs as [-> | ->]; cbn [opt_truthy negb].
  - rewrite Hask. reflexivity.
  - rewrite Hurl. cbn [negb get_item bind]. rewrite String.eqb_refl, Hask.
    reflexivity.
Qed.

Lemma main_starts_over args_video_url stdin rest fs d url :
  progress_json fs = Some (Json d) ->
  video_url d = Some url ->
  args_video_url = None \/ args_video_url = Some url ->
  ask_choice stdin = (Ok "s", rest) ->
  main args_video_url stdin fs
  = main_generate args_video_url None rest (remove_progress fs).
Proof.
  intros Hfs Hd Hargs Hask. unfold main. rewrite Hfs.
  cbn [json_load]. rewrite Hd.
  destruct Hargs as [-> | ->]; cbn [opt_truthy negb].
  - rewrite Hask. reflexivity.
  - destruct (str_truthy url); cbn [negb get_item bind];
      rewrite ?String.eqb_refl, Hask; reflexivity.
Qed.

(** *** More on [generate_notes] *)

Lemma generation_loop_files (url : string) (chunks : list string) :
  forall remaining i document fs,
  academic_notes
    (final_files (generation_loop url chunks i remaining document fs))
  = academic_notes fs
  /\ progress_json
       (final_files (generation_loop url chunks i remaining document fs))
     = match last_saved
               (trace (generation_loop url chunks i remaining document fs))
       with
       | Some p => Some (Json p)
       | None => progress_json fs
       end
  /\ Forall (fun p => exists text next, p = make_progress url chunks text next)
       (saved (trace (generation_loop url chunks i remaining document fs))).
Proof.
  induction remaining as [|chunk rest IH]; intros i document fs.
  - cbn. repeat split. constructor.
  - cbn [generation_loop].
    destruct (generate_content (build_prompt i document chunk)) as [text|e].
    + set (p := make_progress url chunks text (i + 1)).
      destruct (IH (i + 1) text (write_progress p fs)) as (Ha & Hp & Hs).
      destruct (generation_loop url chunks (i + 1) rest text
                  (write_progress p fs)) as [[r fs'] events].
      unfold final_files, trace in *.
      cbn [fst snd saved last_saved] in *.
      repeat split.
      * exact Ha.
      * rewrite Hp. destruct (last_saved events); reflexivity.
      * constructor; [|exact Hs]. exists text, (i + 1). reflexivity.
    + cbn. repeat split. constructor.
Qed.

(** X11. What [generate_notes] does to the files, whatever its inputs:
    it never touches the output file; the checkpoint file ends as the
    last record written, or as it was when none was written; and every
    record written carries the URL of the call and the whole chunk
    sequence of the job. *)
Theorem generate_notes_files
    (url : string) (resume_data : option progress) (fs : files) :
  academic_notes (final_files (generate_notes url resume_data fs))
  = academic_notes fs
  /\ progress_json (final_files (generate_notes url resume_data fs))
     = match last_saved (trace (generate_notes url resume_data fs)) with
       | Some p => Some (Json p)
       | None => progress_json fs
       end
  /\ match job_start url resume_data with
     | Ok (chunks, _, _) =>
         Forall (fun p => exists text next,
                            p = make_progress url chunks text next)
           (saved (trace (generate_notes url resume_data fs)))
     | Raise _ => saved (trace (generate_notes url resume_data fs)) = []
     end.
Proof.
  unfold generate_notes, generate_notes_body.
  destruct get_gemini_api_key as [key|e]; cbn [bind].
  - destruct (job_start url resume_data) as [[[chunks document] start]|e];
      cbn [bind].
    + apply generation_loop_files.
    + now repeat split.
  - repeat split. destruct (job_start url resume_data) as [[[? ?] ?]|?];
      [constructor | reflexivity].
Qed.

Lemma generate_notes_keeps_output url resume_data fs :
  academic_notes (final_files (generate_notes url resume_data fs))
  = academic_notes fs.
Proof.
  unfold generate_notes, generate_notes_body.
  destruct get_gemini_api_key as [key|e]; cbn [bind]; [|reflexivity].
  destruct (job_start url resume_data) as [[[chunks document] start]|e];
    cbn [bind]; [|reflexivity].
  apply generation_loop_files.
Qed.


(** X13. Resuming a checkpoint whose index is at or past the end of its
    chunk sequence calls the model for nothing and writes nothing: the
    stored notes come back as they are. *)
Theorem resume_past_end
    (url url0 key document : string) (chunks : list string) (next : Z)
    (fs : files) :
  get_gemini_api_key = Ok key ->
  Z.of_nat (length chunks) <= next ->
  generate_notes url (Some (make_progress url0 chunks document next)) fs
  = (document, fs, []).
Proof.
  intros Hkey Hnext. unfold generate_notes, generate_notes_body.
  rewrite Hkey. cbn. unfold slice_from.
  assert ((next <? 0) = false) as -> by (apply Z.ltb_ge; lia).
  rewrite skipn_all2 by lia. reflexivity.
Qed.

(** X14. Resume data that lacks a key: the returned text names the first
    key missing, in the order the code reads them, and nothing else
    happens. *)
Theorem resume_missing_key
    (url key : string) (d : progress) (fs : files) :
  get_gemini_api_key = Ok key ->
  dict_truthy d = true ->
  (transcript_chunks d = None ->
   generate_notes url (Some d) fs
   = ("An error occurred: 'transcript_chunks'", fs, []))
  /\ (transcript_chunks d <> None -> notes d = None ->
      generate_notes url (Some d) fs = ("An error occurred: 'notes'", fs, []))
  /\ (transcript_chunks d <> None -> notes d <> None ->
      chunk_index d = None ->
      generate_notes url (Some d) fs
      = ("An error occurred: 'chunk_index'", fs, [])).
Proof.
  intros Hkey Hd. unfold generate_notes, generate_notes_body.
  rewrite Hkey. cbn [bind job_start]. rewrite Hd.
  destruct (transcript_chunks d), (notes d), (chunk_index d);
    repeat split; intros; try congruence; reflexivity.
Qed.

(** *** More on [main] *)

(** X15. The question (r)esume or (s)tart over is asked again until the
    answer, whatever its case, is r or s; the lines before it are
    dropped, the lines after it are left; when the input ends first, the
    end-of-file error is raised. *)
Theorem ask_choice_first_valid
    (invalid : list string) (answer : string) (rest : list string) :
  Forall (fun line => lower line <> "r" /\ lower line <> "s") invalid ->
  lower answer = "r" \/ lower answer = "s" ->
  ask_choice (invalid ++ answer :: rest) = (Ok (lower answer), rest)
  /\ ask_choice invalid = (Raise "EOF when reading a line", []).
Proof.
  intros Hinvalid Hanswer. induction Hinvalid as [|line invalid [Hr Hs] _ IH].
  - split; [|reflexivity]. cbn [app ask_choice].
    destruct Hanswer as [-> | ->]; reflexivity.
  - apply String.eqb_neq in Hr, Hs. cbn [app ask_choice].
    rewrite Hr, Hs. exact IH.
Qed.

(** X17. A URL other than the one of the checkpoint: [main] removes the
    checkpoint without asking and starts afresh; the record is lost even
    if the new run cannot start, as with the API key unset. *)
Theorem new_url_discards_checkpoint
    (given stored : string) (d : progress) (stdin : list string)
    (fs : files) :
  progress_json fs = Some (Json d) ->
  video_url d = Some stored ->
  str_truthy given = true ->
  given <> stored ->
  main (Some given) stdin fs
  = main_generate (Some given) None stdin (remove_progress fs)
  /\ (GEMINI_API_KEY = None ->
      main (Some given) stdin fs = Finished (remove_progress fs) []).
Proof.
  intros Hfs Hd Hgiven Hneq.
  assert (Hmain : main (Some given) stdin fs
                  = main_generate (Some given) None stdin (remove_progress fs)).
  { unfold main. rewrite Hfs. cbn [json_load opt_truthy]. rewrite Hgiven, Hd.
    cbn [negb get_item bind]. apply String.eqb_neq in Hneq. rewrite Hneq.
    reflexivity. }
  split; [exact Hmain|]. intros Hkey. rewrite Hmain.
  rewrite (main_generate_with_url _ _ _ _ Hgiven).
  rewrite generate_notes_no_key
    with (e := "GEMINI_API_KEY environment variable not set.")
    by (unfold get_gemini_api_key; rewrite Hkey; reflexivity).
  reflexivity.
Qed.

Lemma completed_run_returns url chunks resume_data fs k key document :
  get_gemini_api_key = Ok key ->
  run_start url chunks resume_data k ->
  document_after chunks (length chunks) = Some document ->
  returned_notes (generate_notes url resume_data fs) = document.
Proof.
  intros Hkey Hstart Hd.
  destruct (generate_notes_is_loop _ _ _ fs _ _ Hkey Hstart)
    as (document_k & Hk & Hdk & ->).
  destruct (generation_loop_run url chunks _ k document_k fs _
              Hk eq_refl Hdk eq_refl) as (m & _ & Hstop & _).
  refine (proj2 (stops_at_unique _ _ (length chunks) _ _ Hstop _)).
  repeat split; [lia | assumption | lia].
Qed.

(** X18. Resumption through [main]: with the checkpoint of an interrupted
    job in the file and the answer r, [main] ends with the same output
    file, and no checkpoint, as [main] run afresh on the same video
    without any checkpoint file, when every step succeeds and the notes do
    not contain the error text. *)
Theorem main_resumption_equivalence
    (url key transcript document_k document_n : string)
    (chunks : list string) (k : nat) (args_video_url : option string)
    (stdin rest stdin0 : list string) (fs fs0 : files) :
  get_gemini_api_key = Ok key ->
  str_truthy url = true ->
  get_transcript url = Ok transcript ->
  Chunker.chunk_text (preprocess_transcript transcript)
    Chunker.default_max_chunk_size = chunks ->
  (k <= length chunks)%nat ->
  document_after chunks k = Some document_k ->
  document_after chunks (length chunks) = Some document_n ->
  contains "An error occurred" document_n = false ->
  progress_json fs
  = Some (Json (make_progress url chunks document_k (Z.of_nat k))) ->
  args_video_url = None \/ args_video_url = Some url ->
  ask_choice stdin = (Ok "r", rest) ->
  progress_json fs0 = None ->
  exists events events0,
    main args_video_url stdin fs
    = Finished
        {| progress_json := None; academic_notes := Some document_n |} events
    /\ main (Some url) stdin0 fs0
       = Finished
           {| progress_json := None; academic_notes := Some document_n |}
           events0.
Proof.
  intros Hkey Hurl Ht Hc Hk Hdk Hdn Hclean Hfs Hargs Hask Hfs0.
  eexists. eexists. split.
  - rewrite (main_resumes _ _ _ _ _ url Hfs eq_refl Hurl Hargs Hask).
    rewrite (main_generate_with_url _ _ _ _ Hurl).
    rewrite (completed_run_returns url chunks _ fs k key document_n Hkey
               (start_resume url chunks url k document_k Hk Hdk) Hdn).
    unfold main_finish. rewrite Hclean. reflexivity.
  - rewrite (main_without_checkpoint _ _ _ Hfs0).
    rewrite (main_generate_with_url _ _ _ _ Hurl).
    rewrite (completed_run_returns url chunks _ fs0 0 key document_n Hkey
               (start_fresh url chunks transcript Ht Hc) Hdn).
    unfold main_finish. rewrite Hclean. reflexivity.
Qed.

Lemma main_generate_output video_url resume_data stdin fs :
  match main_generate video_url resume_data stdin fs with
  | Finished fs' _ =>
      academic_notes fs' = academic_notes fs
      \/ (progress_json fs' = None
          /\ exists returned,
               academic_notes fs' = Some returned
               /\ contains "An error occurred" returned = false)
  | Uncaught _ fs' => fs' = fs
  end.
Proof.
  unfold main_generate.
  destruct (if negb (opt_truthy video_url) then fst (input stdin)
            else match video_url with
                 | Some url => Ok url
                 | None => Ok ""
                 end) as [url|e]; [|reflexivity].
  pose proof (generate_notes_keeps_output url resume_data fs) as Hkeep.
  destruct (generate_notes url resume_data fs) as [[returned fs'] events].
  unfold final_files in Hkeep. cbn [fst snd] in Hkeep.
  unfold main_finish.
  destruct (contains "An error occurred" returned) eqn:E; cbn [negb].
  - left. exact Hkeep.
  - right. split; [reflexivity|]. exists returned. now split.
Qed.

(** X19. Whatever [main] is given, it writes the output file only with
    notes that do not contain the error text, and only together with the
    removal of the checkpoint file; when it ends in an exception the
    output file is as it was. *)
Theorem main_output_only_with_cleared_checkpoint
    (args_video_url : option string) (stdin : list string) (fs : files) :
  match main args_video_url stdin fs with
  | Finished fs' _ =>
      academic_notes fs' = academic_notes fs
      \/ (progress_json fs' = None
          /\ exists returned,
               academic_notes fs' = Some returned
               /\ contains "An error occurred" returned = false)
  | Uncaught _ fs' => academic_notes fs' = academic_notes fs
  end.
Proof.
  assert (Hgen : forall v r s f,
    academic_notes f = academic_notes fs ->
    match main_generate v r s f with
    | Finished fs' _ =>
        academic_notes fs' = academic_notes fs
        \/ (progress_json fs' = None
            /\ exists returned,
                 academic_notes fs' = Some returned
                 /\ contains "An error occurred" returned = false)
    | Uncaught _ fs' => academic_notes fs' = academic_notes fs
    end).
  { intros v r s f Hf. pose proof (main_generate_output v r s f) as H.
    destruct (main_generate v r s f) as [fs' events | e fs'].
    - rewrite <- Hf. exact H.
    - now subst fs'. }
  unfold main. destruct (progress_json fs) as [content|]; [|now apply Hgen].
  destruct (json_load content) as [d|e]; [|reflexivity].
  destruct (if negb (opt_truthy args_video_url) then Ok true
            else url <- get_item (video_url d) "video_url" ;;
                 Ok match args_video_url with
                    | Some given => String.eqb given url
                    | None => false
                    end) as [[|]|e]; [| now apply Hgen | reflexivity].
  destruct (ask_choice stdin) as [[choice|e] stdin']; [|reflexivity].
  destruct (String.eqb choice "r"); [|now apply Hgen].
  destruct (get_item (video_url d) "video_url") as [url|e];
    [now apply Hgen | reflexivity].
Qed.

End Pipeline.

(** ** The chunker *)

Module ChunkerFacts.
Import Chunker.

Lemma append_empty_r (s : string) : s ++ "" = s.
Proof. induction s as [|c s IH]; simpl; [reflexivity | now rewrite IH]. Qed.

Lemma append_assoc (a b c : string) : (a ++ b) ++ c = a ++ b ++ c.
Proof. induction a as [|x a IH]; simpl; [reflexivity | now rewrite IH]. Qed.

Lemma join_cons (chunk : string) (chunks : list string) :
  join (chunk :: chunks) = chunk ++ join chunks.
Proof.
  unfold join. destruct chunks as [|next chunks]; simpl.
  - now rewrite append_empty_r.
  - reflexivity.
Qed.

Lemma join_app (front back : list string) :
  join (front ++ back) = join front ++ join back.
Proof.
  induction front as [|chunk front IH].
  - reflexivity.
  - change ((chunk :: front) ++ back)%list with (chunk :: (front ++ back))%list.
    rewrite !join_cons, IH, append_assoc. reflexivity.
Qed.

Lemma without_delimiter_app (a b : string) :
  without_delimiter (a ++ b) = without_delimiter a ++ without_delimiter b.
Proof.
  induction a as [|c a IH]; simpl; [reflexivity|].
  destruct (Ascii.eqb c "."); simpl; now rewrite IH.
Qed.

(** The sentences, each followed by the delimiter, in order. *)
Lemma closed_sentences_of_split (text : string) :
  without_delimiter (join (map (fun s => s ++ ".") (split "." text)))
  = without_delimiter text.
Proof.
  induction text as [|c text IH].
  - reflexivity.
  - cbn [split without_delimiter]. destruct (Ascii.eqb c ".") eqn:E.
    + cbn [map]. rewrite join_cons, without_delimiter_app. exact IH.
    + destruct (split "." text) as [|piece pieces].
      * cbn. rewrite E. cbn in IH. now rewrite <- IH.
      * cbn [map] in *. rewrite join_cons in *. cbn [append without_delimiter].
        rewrite E, IH. reflexivity.
Qed.

(** The loop only moves text between the buffer and the closed chunks. *)
Lemma chunk_loop_join (max_chunk_size : Z) :
  forall sentences chunks current_chunk,
  join (fst (chunk_loop max_chunk_size sentences chunks current_chunk))
    ++ snd (chunk_loop max_chunk_size sentences chunks current_chunk)
  = join chunks ++ current_chunk
      ++ join (map (fun s => s ++ ".") sentences).
Proof.
  induction sentences as [|sentence rest IH]; intros chunks current_chunk.
  - cbn. now rewrite append_empty_r.
  - cbn [chunk_loop map]. rewrite join_cons.
    destruct (len current_chunk + len sentence <? max_chunk_size).
    + rewrite IH, !append_assoc. reflexivity.
    + rewrite IH, join_app, join_cons. cbn [join String.concat].
      rewrite append_empty_r, !append_assoc. reflexivity.
Qed.

Lemma join_chunk_text (text : string) (max_chunk_size : Z) :
  join (chunk_text text max_chunk_size)
  = join (map (fun s => s ++ ".") (split "." text)).
Proof.
  unfold chunk_text.
  pose proof (chunk_loop_join max_chunk_size (split "." text) [] "") as H.
  destruct (chunk_loop max_chunk_size (split "." text) [] "")
    as [chunks current_chunk].
  cbn [fst snd] in H. cbn in H. rewrite <- H.
  destruct current_chunk as [|c rest]; cbn [str_truthy].
  - now rewrite append_empty_r.
  - rewrite join_app, join_cons. cbn [join String.concat].
    now rewrite append_empty_r.
Qed.

(** C9. Chunker round trip: the chunks joined in order, the delimiter
    ['.'] ignored, are the text with its delimiters ignored: the same
    characters in the same order. *)
Theorem chunk_text_round_trip (text : string) (max_chunk_size : Z) :
  without_delimiter (join (chunk_text text max_chunk_size))
  = without_delimiter text.
Proof.
  rewrite join_chunk_text. apply closed_sentences_of_split.
Qed.

(** C7. The code on Scenario B: three chunks, an empty one first and a
    doubled delimiter at the end of the last. *)
Theorem chunk_text_scenario_B :
  chunk_text "AAAAAAAAAA. B." 10 = [""; "AAAAAAAAAA."; " B.."].
Proof. reflexivity. Qed.

(** C8. The code on the empty text: never an empty sequence; the single
    chunk ["."] for a positive size. *)
Theorem chunk_text_empty (max_chunk_size : Z) :
  chunk_text "" max_chunk_size
  = if 0 <? max_chunk_size then ["."] else [""; "."].
Proof.
  unfold chunk_text. cbn [split chunk_loop]. change (len "" + len "") with 0.
  destruct (0 <? max_chunk_size); reflexivity.
Qed.

End ChunkerFacts.

(** ** The properties on the example runs *)

(** Resuming the lecture after two chunks ends with the notes of the
    uninterrupted run. *)
Lemma resumption_correctness_witness :
  returned_notes
    (generate_notes (Some "key") lecture_transcript stub_model lecture_url
       (Some (make_progress lecture_url lecture_chunks "Notes (bbbb.)"
                (Z.of_nat 2))) interrupted_files)
  = returned_notes
      (generate_notes (Some "key") lecture_transcript stub_model lecture_url
         None no_files)
  /\ returned_notes
       (generate_notes (Some "key") lecture_transcript stub_model lecture_url
          (Some (make_progress lecture_url lecture_chunks "Notes (bbbb.)"
                   (Z.of_nat 2))) interrupted_files)
     = "Notes (eeee.)".
Proof.
  destruct (resumption_correctness (Some "key") lecture_transcript stub_model
              lecture_url lecture_url lecture_url lecture_chunks 2
              "Notes (bbbb.)" "Notes (eeee.)" interrupted_files no_files)
    as (_ & Hfresh & Hall).
  - vm_compute. lia.
  - vm_compute. reflexivity.
  - vm_compute. reflexivity.
  - split.
    + apply (Hfresh lecture); [reflexivity | vm_compute; reflexivity].
    + apply (Hall "key"). reflexivity.
Defined.

(** Scenario C: the model fails on chunk 2 of 5. *)
Lemma partial_failure_witness :
  returned_notes
    (generate_notes (Some "key") lecture_transcript failing_model lecture_url
       None no_files) = "Notes (bbbb.)"
  /\ generated
       (trace (generate_notes (Some "key") lecture_transcript failing_model
                 lecture_url None no_files))
     = [0; 1; 2]
  /\ map chunk_index
       (saved (trace (generate_notes (Some "key") lecture_transcript
                        failing_model lecture_url None no_files)))
     = [Some 1; Some 2]
  /\ holds_checkpoint
       (final_files (generate_notes (Some "key") lecture_transcript
                       failing_model lecture_url None no_files))
       lecture_chunks "Notes (bbbb.)" 2.
Proof.
  apply (partial_failure (Some "key") lecture_transcript failing_model
           lecture_url lecture_chunks None no_files 0 2 "Notes (bbbb.)"
           (replicate "c" 5000 ++ ".") "429 Resource has been exhausted"
           "key").
  - reflexivity.
  - apply start_fresh with (transcript := lecture);
      [reflexivity | vm_compute; reflexivity].
  - reflexivity.
  - lia.
  - vm_compute. reflexivity.
  - reflexivity.
  - vm_compute. reflexivity.
Defined.

Lemma resumed_lecture_start :
  run_start lecture_transcript stub_model lecture_url lecture_chunks
    (Some (make_progress lecture_url lecture_chunks "Notes (bbbb.)"
             (Z.of_nat 2))) 2.
Proof.
  apply start_resume; [vm_compute; lia | vm_compute; reflexivity].
Defined.


(** The steps of the lecture that fails on chunk 2 come in order, each
    begun with the checkpoint of the one before in the file. *)
Lemma steps_in_order_witness :
  exists m document_k,
    (0 <= m)%nat
    /\ stops_at failing_model lecture_chunks m
         (returned_notes
            (generate_notes (Some "key") lecture_transcript failing_model
               lecture_url None no_files))
    /\ document_after failing_model lecture_chunks 0 = Some document_k
    /\ generated
         (trace (generate_notes (Some "key") lecture_transcript failing_model
                   lecture_url None no_files))
       = map Z.of_nat
           (seq 0 (if (m <? length lecture_chunks)%nat then S m - 0
                   else m - 0))
    /\ sequential lecture_chunks (Z.of_nat 0)
         (trace (generate_notes (Some "key") lecture_transcript failing_model
                   lecture_url None no_files))
    /\ forall j, (0 < j <= m)%nat ->
       exists document_j,
         document_after failing_model lecture_chunks j = Some document_j
         /\ progress_json
              (final_files
                 (generation_loop failing_model lecture_url lecture_chunks
                    (Z.of_nat 0) (firstn (j - 0) (skipn 0 lecture_chunks))
                    document_k no_files))
            = Some (Json (make_progress lecture_url lecture_chunks
                            document_j (Z.of_nat j)))
         /\ generate_notes (Some "key") lecture_transcript failing_model
              lecture_url None no_files
            = then_run
                (generation_loop failing_model lecture_url lecture_chunks
                   (Z.of_nat 0) (firstn (j - 0) (skipn 0 lecture_chunks))
                   document_k no_files)
                (generation_loop failing_model lecture_url lecture_chunks
                   (Z.of_nat j) (skipn j lecture_chunks) document_j
                   (final_files
                      (generation_loop failing_model lecture_url
                         lecture_chunks (Z.of_nat 0)
                         (firstn (j - 0) (skipn 0 lecture_chunks))
                         document_k no_files))).
Proof.
  apply (steps_in_order (Some "key") lecture_transcript failing_model
           lecture_url lecture_chunks None no_files 0 "key").
  - reflexivity.
  - apply start_fresh with (transcript := lecture);
      [reflexivity | vm_compute; reflexivity].
Defined.

(** Scenario D: the lecture resumed after two chunks runs to completion;
    its notes are filed and the checkpoint is gone. *)
Lemma completion_witness :
  returned_notes
    (generate_notes (Some "key") lecture_transcript stub_model lecture_url
       (Some (make_progress lecture_url lecture_chunks "Notes (bbbb.)"
                (Z.of_nat 2))) interrupted_files)
  = "Notes (eeee.)"
  /\ main_generate (Some "key") lecture_transcript stub_model
       (Some lecture_url)
       (Some (make_progress lecture_url lecture_chunks "Notes (bbbb.)"
                (Z.of_nat 2))) [] interrupted_files
     = Finished
         {| progress_json := None; academic_notes := Some "Notes (eeee.)" |}
         (trace (generate_notes (Some "key") lecture_transcript stub_model
                   lecture_url
                   (Some (make_progress lecture_url lecture_chunks
                            "Notes (bbbb.)" (Z.of_nat 2)))
                   interrupted_files)).
Proof.
  destruct (completion (Some "key") lecture_transcript stub_model lecture_url
              lecture_chunks
              (Some (make_progress lecture_url lecture_chunks "Notes (bbbb.)"
                       (Z.of_nat 2)))
              [] interrupted_files 2 "Notes (eeee.)" "key")
    as [Hreturned Hfiled].
  - reflexivity.
  - reflexivity.
  - exact resumed_lecture_start.
  - vm_compute. reflexivity.
  - split; [exact Hreturned | apply Hfiled; reflexivity].
Defined.

(** C5 fails as stated: every step of this run succeeds, and [main]
    neither files the notes nor clears the checkpoint, because the notes
    quote the text "An error occurred". *)
Lemma completion_counterexample :
  Chunker.chunk_text (preprocess_transcript "Hello world. This is a test.")
    Chunker.default_max_chunk_size = talk_chunks
  /\ document_after quoting_model talk_chunks (length talk_chunks)
     = Some quoted_notes
  /\ main (Some "key") talk_transcript quoting_model (Some lecture_url) []
       no_files
     = Finished
         {| progress_json :=
              Some (Json (make_progress lecture_url talk_chunks
                            quoted_notes 1));
            academic_notes := None |}
         [Generate 0 "Hello world. This is a test..";
          Save (make_progress lecture_url talk_chunks quoted_notes 1)].
Proof. repeat split; vm_compute; reflexivity. Qed.

(** A truncated checkpoint file aborts [main]; a record without its notes
    makes the resumed run end with the error text, the record in place;
    met with another URL, the same record is removed and the run starts
    afresh. *)
Lemma corrupt_checkpoint_not_degraded_witness :
  main (Some "key") talk_transcript stub_model (Some lecture_url) ["r"]
    truncated_files
  = Uncaught "Expecting value: line 1 column 1 (char 0)" truncated_files
  /\ main (Some "key") talk_transcript stub_model (Some lecture_url) ["r"]
       incomplete_files
     = Finished incomplete_files []
  /\ main (Some "key") talk_transcript stub_model (Some other_url) []
       incomplete_files
     = main_generate (Some "key") talk_transcript stub_model
         (Some other_url) None [] (remove_progress incomplete_files).
Proof.
  split; [|split].
  - apply (proj1 (corrupt_checkpoint_not_degraded (Some "key")
                    talk_transcript stub_model (Some lecture_url) ["r"]
                    truncated_files _ eq_refl)).
    reflexivity.
  - apply (proj1 (proj2 (proj2 (proj2
             (corrupt_checkpoint_not_degraded (Some "key") talk_transcript
                stub_model (Some lecture_url) ["r"] incomplete_files _
                eq_refl))))
             incomplete_record lecture_url []); try reflexivity.
    + right. reflexivity.
    + right. left. reflexivity.
  - apply (proj1 (proj2 (proj2 (proj2 (proj2
             (corrupt_checkpoint_not_degraded (Some "key") talk_transcript
                stub_model (Some other_url) [] incomplete_files _
                eq_refl)))))
             incomplete_record lecture_url other_url); try reflexivity.
    apply String.eqb_neq. reflexivity.
Defined.

(** C6 fails as stated: with the truncated checkpoint file [main] ends in
    the decoding error, while without the file the same call starts
    afresh and files its notes. *)
Lemma corrupt_checkpoint_counterexample :
  main (Some "key") talk_transcript stub_model (Some lecture_url) []
    truncated_files
  = Uncaught "Expecting value: line 1 column 1 (char 0)" truncated_files
  /\ main (Some "key") talk_transcript stub_model (Some lecture_url) []
       (remove_progress truncated_files)
     = Finished
         {| progress_json := None; academic_notes := Some "Notes (test.)" |}
         [Generate 0 "Hello world. This is a test..";
          Save (make_progress lecture_url talk_chunks "Notes (test.)" 1)].
Proof. split; vm_compute; reflexivity. Qed.

(** Without the API key the error text comes back and nothing is filed;
    notes without the error text are filed and the checkpoint removed; the
    notes quoting an error message are taken for a failure although every
    step succeeded. *)
Lemma in_band_error_signalling_witness :
  (generate_notes None talk_transcript stub_model lecture_url None no_files
   = ("An error occurred: GEMINI_API_KEY environment variable not set.",
      no_files, [])
   /\ main_generate None talk_transcript stub_model (Some lecture_url) None []
        no_files
      = Finished no_files [])
  /\ generate_notes_body (Some "key") no_transcript stub_model lecture_url
       None no_files
     = Raise "An error occurred: list index out of range"
  /\ main_generate (Some "key") talk_transcript stub_model
       (Some lecture_url) None [] no_files
     = Finished
         {| progress_json := None;
            academic_notes :=
              Some (returned_notes
                      (generate_notes (Some "key") talk_transcript stub_model
                         lecture_url None no_files)) |}
         (trace (generate_notes (Some "key") talk_transcript stub_model
                   lecture_url None no_files))
  /\ exists fs',
       main_generate (Some "key") talk_transcript quoting_model
         (Some lecture_url) None [] no_files
       = Finished fs'
           (trace (generate_notes (Some "key") talk_transcript quoting_model
                     lecture_url None no_files))
       /\ academic_notes fs' = None
       /\ progress_json fs'
          = Some (Json (make_progress lecture_url talk_chunks quoted_notes 1)).
Proof.
  split; [|split; [|split]].
  - destruct (in_band_error_signalling None talk_transcript stub_model
                lecture_url None [] no_files eq_refl)
      as (Hraise & Hkey & _).
    apply Hraise. apply Hkey. reflexivity.
  - destruct (in_band_error_signalling (Some "key") no_transcript stub_model
                lecture_url None [] no_files eq_refl)
      as (_ & _ & Hfetch & _).
    apply (Hfetch "key"); reflexivity.
  - destruct (in_band_error_signalling (Some "key") talk_transcript
                stub_model lecture_url None [] no_files eq_refl)
      as (_ & _ & _ & _ & Hfiled & _).
    apply Hfiled. reflexivity.
  - destruct (in_band_error_signalling (Some "key") talk_transcript
                quoting_model lecture_url None [] no_files eq_refl)
      as (_ & _ & _ & _ & _ & Hquoted).
    apply (Hquoted talk_chunks 0%nat "key" quoted_notes).
    + reflexivity.
    + apply start_fresh with (transcript := "Hello world. This is a test.");
        reflexivity.
    + reflexivity.
    + reflexivity.
Defined.

(** ** More on the chunker *)

Module ChunkerBounds.
Import Chunker.

Lemma len_append (a b : string) : len (a ++ b) = len a + len b.
Proof.
  unfold len. induction a as [|c a IH]; cbn [append code_points].
  - lia.
  - destruct (continuation_byte c); rewrite ?Nat2Z.inj_succ; lia.
Qed.

Lemma len_nonneg (s : string) : 0 <= len s.
Proof. unfold len. lia. Qed.

Lemma split_cons (sep : ascii) (text : string) :
  exists piece pieces, split sep text = piece :: pieces.
Proof.
  destruct text as [|c text]; cbn [split]; [now eexists; eexists|].
  destruct (Ascii.eqb c sep); [now eexists; eexists|].
  destruct (split sep text); now eexists; eexists.
Qed.

Lemma closed_cons (sentence : string) (group : list string) :
  closed (sentence :: group) = sentence ++ "." ++ closed group.
Proof.
  unfold closed. cbn [map].
  rewrite ChunkerFacts.join_cons, ChunkerFacts.append_assoc. reflexivity.
Qed.

Lemma closed_app (front back : list string) :
  closed (front ++ back) = closed front ++ closed back.
Proof.
  unfold closed. rewrite map_app. apply ChunkerFacts.join_app.
Qed.

Lemma closed_one (sentence : string) : closed [sentence] = sentence ++ ".".
Proof. reflexivity. Qed.

Lemma closed_empty (group : list string) : closed group = "" -> group = [].
Proof.
  destruct group as [|sentence group]; [reflexivity|].
  rewrite closed_cons. destruct sentence; discriminate.
Qed.

(** The sentences of a text, each closed by the delimiter, spell the text
    and one more delimiter. *)
Lemma closed_split (text : string) : closed (split "." text) = text ++ ".".
Proof.
  induction text as [|c text IH]; [reflexivity|].
  cbn [split]. destruct (Ascii.eqb c ".") eqn:E.
  - apply Ascii.eqb_eq in E. subst c. rewrite closed_cons, IH. reflexivity.
  - destruct (split "." text) as [|piece pieces].
    + cbn in IH. destruct text; discriminate.
    + rewrite closed_cons in *.
      change (String c piece ++ "." ++ closed pieces)
        with (String c (piece ++ "." ++ closed pieces)).
      rewrite IH. reflexivity.
Qed.

(** X1. The chunks joined in order are the text followed by one more
    delimiter: nothing of the text is lost, moved or repeated. *)
Theorem joined_chunks_are_text (text : string) (max_chunk_size : Z) :
  join (chunk_text text max_chunk_size) = text ++ ".".
Proof.
  rewrite ChunkerFacts.join_chunk_text. apply closed_split.
Qed.

Lemma chunk_loop_nonempty (max_chunk_size : Z) :
  forall sentences chunks current_chunk,
  current_chunk <> "" ->
  exists added,
    fst (chunk_loop max_chunk_size sentences chunks current_chunk)
    = (chunks ++ added)%list
    /\ Forall (fun chunk => chunk <> "") added
    /\ snd (chunk_loop max_chunk_size sentences chunks current_chunk) <> "".
Proof.
  induction sentences as [|sentence rest IH]; intros chunks current Hcur.
  - exists []. cbn. rewrite app_nil_r. repeat split; [constructor | exact Hcur].
  - cbn [chunk_loop].
    destruct (len current + len sentence <? max_chunk_size).
    + apply IH. destruct current; [congruence | discriminate].
    + destruct (IH (chunks ++ [current])%list (sentence ++ "."))
        as (added & Hfst & Hall & Hsnd).
      { destruct sentence; discriminate. }
      exists (current :: added). rewrite Hfst, <- app_assoc.
      repeat split; [constructor; assumption | exact Hsnd].
Qed.

(** X2. [chunk_text] never returns an empty list, and a chunk other than
    the first is never empty; the first one is empty exactly when the
    first sentence alone reaches the size. *)
Theorem chunks_after_first_nonempty (text : string) (max_chunk_size : Z) :
  exists first others,
    chunk_text text max_chunk_size = first :: others
    /\ Forall (fun chunk => chunk <> "") others
    /\ (first = "" <-> max_chunk_size <= len (hd "" (split "." text))).
Proof.
  unfold chunk_text.
  destruct (split_cons "." text) as (sentence & rest & ->).
  cbn [chunk_loop hd app]. change (len "") with 0. cbn [Z.add append].
  destruct (len sentence <? max_chunk_size) eqn:E.
  - apply Z.ltb_lt in E.
    destruct (chunk_loop_nonempty max_chunk_size rest [] (sentence ++ "."))
      as (added & Hfst & Hall & Hsnd); [destruct sentence; discriminate|].
    destruct (chunk_loop max_chunk_size rest [] (sentence ++ "."))
      as [chunks current]. cbn [fst snd app] in *. subst chunks.
    assert (str_truthy current = true) as ->
      by (destruct current; [congruence | reflexivity]).
    destruct added as [|chunk added].
    + exists current, []. repeat split; [constructor | | lia].
      intros ->. congruence.
    + exists chunk, (added ++ [current])%list. inversion Hall; subst.
      repeat split.
      * apply Forall_app. split; [assumption|]. now constructor.
      * intros ->. congruence.
      * lia.
  - apply Z.ltb_ge in E.
    destruct (chunk_loop_nonempty max_chunk_size rest [""] (sentence ++ "."))
      as (added & Hfst & Hall & Hsnd); [destruct sentence; discriminate|].
    destruct (chunk_loop max_chunk_size rest [""] (sentence ++ "."))
      as [chunks current]. cbn [fst snd app] in *. subst chunks.
    assert (str_truthy current = true) as ->
      by (destruct current; [congruence | reflexivity]).
    exists "", (added ++ [current])%list.
    split; [reflexivity|]. split.
    + apply Forall_app. split; [assumption|]. now constructor.
    + split; [intros _; exact E | reflexivity].
Qed.

Lemma chunk_loop_bound (max_chunk_size : Z) (all : list string)
    (within := fun chunk =>
       chunk = "" \/ len chunk <= max_chunk_size
       \/ exists sentence, In sentence all /\ chunk = sentence ++ ".") :
  forall sentences chunks current_chunk,
  incl sentences all ->
  Forall within chunks -> within current_chunk ->
  Forall within
    (fst (chunk_loop max_chunk_size sentences chunks current_chunk))
  /\ within (snd (chunk_loop max_chunk_size sentences chunks current_chunk)).
Proof.
  induction sentences as [|sentence rest IH]; intros chunks current Hin Hcs Hc.
  - now split.
  - cbn [chunk_loop].
    assert (Hrest : incl rest all) by (intros x Hx; apply Hin; now right).
    destruct (len current + len sentence <? max_chunk_size) eqn:E.
    + apply Z.ltb_lt in E. apply IH; try assumption.
      right. left. rewrite !len_append. change (len ".") with 1. lia.
    + apply IH; try assumption.
      * apply Forall_app. split; [assumption | now constructor].
      * right. right. exists sentence. split; [apply Hin; now left|].
        reflexivity.
Qed.

(** X3. The size is a soft bound: every chunk is empty, or no longer than
    [max_chunk_size], or one single sentence of the text with its
    delimiter. *)
Theorem chunk_soft_bound (text : string) (max_chunk_size : Z) :
  Forall (fun chunk =>
            chunk = "" \/ len chunk <= max_chunk_size
            \/ exists sentence,
                 In sentence (split "." text) /\ chunk = sentence ++ ".")
    (chunk_text text max_chunk_size).
Proof.
  unfold chunk_text.
  destruct (chunk_loop_bound max_chunk_size (split "." text)
              (split "." text) [] "") as [Hchunks Hcurrent];
    [apply incl_refl | constructor | now left |].
  destruct (chunk_loop max_chunk_size (split "." text) [] "")
    as [chunks current]. cbn [fst snd] in *.
  destruct (str_truthy current); [|assumption].
  apply Forall_app. split; [assumption | now constructor].
Qed.

Lemma chunk_loop_groups (max_chunk_size : Z) :
  forall sentences groups group,
  exists groups' group',
    fst (chunk_loop max_chunk_size sentences (map closed groups)
           (closed group)) = map closed groups'
    /\ snd (chunk_loop max_chunk_size sentences (map closed groups)
              (closed group)) = closed group'
    /\ (concat groups' ++ group' = concat groups ++ group ++ sentences)%list.
Proof.
  induction sentences as [|sentence rest IH]; intros groups group.
  - exists groups, group. cbn. rewrite app_nil_r. now repeat split.
  - cbn [chunk_loop].
    destruct (len (closed group) + len sentence <? max_chunk_size).
    + destruct (IH groups (group ++ [sentence])%list)
        as (groups' & group' & Hfst & Hsnd & Hall).
      rewrite closed_app, closed_one in Hfst, Hsnd.
      exists groups', group'. repeat split; try assumption.
      rewrite Hall, <- app_assoc. reflexivity.
    + destruct (IH (groups ++ [group])%list [sentence])
        as (groups' & group' & Hfst & Hsnd & Hall).
      rewrite map_app in Hfst, Hsnd. cbn [map] in Hfst, Hsnd.
      rewrite closed_one in Hfst, Hsnd.
      exists groups', group'. repeat split; try assumption.
      rewrite Hall, concat_app. cbn [concat]. rewrite app_nil_r, <- app_assoc.
      reflexivity.
Qed.

(** X4. A sentence is never cut: the chunks are the sentences of the
    text, in order, gathered into consecutive groups, each sentence
    written with its delimiter. *)
Theorem chunks_are_whole_sentences (text : string) (max_chunk_size : Z) :
  exists groups,
    concat groups = split "." text
    /\ chunk_text text max_chunk_size = map closed groups.
Proof.
  unfold chunk_text.
  destruct (chunk_loop_groups max_chunk_size (split "." text) [] [])
    as (groups & group & Hfst & Hsnd & Hall).
  change (map closed []) with (@nil string) in Hfst, Hsnd.
  change (closed []) with "" in Hfst, Hsnd.
  destruct (chunk_loop max_chunk_size (split "." text) [] "")
    as [chunks current]. cbn [fst snd concat app] in *. subst chunks current.
  destruct (str_truthy (closed group)) eqn:E.
  - exists (groups ++ [group])%list. rewrite concat_app, map_app. cbn.
    rewrite app_nil_r. now split.
  - assert (group = []) as ->
      by (apply closed_empty; destruct (closed group); [reflexivity|discriminate]).
    rewrite app_nil_r in Hall. exists groups. now split.
Qed.

Lemma chunk_loop_fits (max_chunk_size : Z) :
  forall sentences chunks current_chunk,
  sentences <> [] ->
  len current_chunk + len (closed sentences) - 1 < max_chunk_size ->
  chunk_loop max_chunk_size sentences chunks current_chunk
  = (chunks, current_chunk ++ closed sentences).
Proof.
  induction sentences as [|sentence rest IH]; intros chunks current Hne Hfit;
    [congruence|].
  cbn [chunk_loop]. rewrite closed_cons in *.
  rewrite !len_append in Hfit. change (len ".") with 1 in Hfit.
  pose proof (len_nonneg (closed rest)).
  assert ((len current + len sentence <? max_chunk_size) = true) as ->
    by (apply Z.ltb_lt; lia).
  destruct rest as [|next rest].
  - reflexivity.
  - rewrite IH; [| discriminate |].
    + rewrite !ChunkerFacts.append_assoc. reflexivity.
    + rewrite !len_append. change (len ".") with 1. lia.
Qed.

(** X5. A text shorter than [max_chunk_size] makes one chunk: the text
    and one more delimiter. *)
Theorem short_text_single_chunk (text : string) (max_chunk_size : Z) :
  len text < max_chunk_size ->
  chunk_text text max_chunk_size = [text ++ "."].
Proof.
  intros Hshort. unfold chunk_text.
  rewrite chunk_loop_fits.
  - rewrite closed_split. cbn [append].
    destruct text; reflexivity.
  - destruct (split_cons "." text) as (piece & pieces & ->). discriminate.
  - rewrite closed_split, len_append. change (len "") with 0.
    change (len ".") with 1. lia.
Qed.

(** Sizes are counted in code points, here on letters of two bytes. *)
Example chunk_text_counts_code_points :
  chunk_text "ééééé. üü" 8 = ["ééééé."; " üü."]
  /\ chunk_text "éé.éé" 8 = ["éé.éé."]
  /\ chunk_text "ééééé" 8 = ["ééééé."].
Proof. repeat split; vm_compute; reflexivity. Qed.

End ChunkerBounds.

(** ** The preprocessing *)

Module PreprocessFacts.

Lemma preprocess_head (b : ascii) (rest : string) :
  exists tail, preprocess_transcript (String b rest) = String b tail.
Proof.
  destruct rest as [|c rest]; cbn [preprocess_transcript]; [now eexists|].
  destruct (is_lower b && is_upper c); now eexists.
Qed.

(** X6. After preprocessing no lower-case letter is directly followed by
    an upper-case one: the pattern has no match left. *)
Theorem preprocess_leaves_no_boundary (text : string) :
  boundary_free (preprocess_transcript text) = true.
Proof.
  induction text as [|a rest IH]; [reflexivity|].
  destruct rest as [|b rest]; [reflexivity|].
  destruct (preprocess_head b rest) as [tail Htail].
  cbn [preprocess_transcript] in *.
  destruct (is_lower a && is_upper b) eqn:E; rewrite Htail in *.
  - cbn [append boundary_free].
    change (is_upper ".") with false. change (is_lower ".") with false.
    change (is_lower " ") with false.
    rewrite andb_false_r. cbn [andb negb]. exact IH.
  - cbn [boundary_free]. rewrite E. exact IH.
Qed.

Lemma preprocess_fixed (text : string) :
  boundary_free text = true -> preprocess_transcript text = text.
Proof.
  induction text as [|a rest IH]; [reflexivity|].
  destruct rest as [|b rest]; [reflexivity|].
  intros H. cbn [boundary_free] in H. apply andb_true_iff in H.
  destruct H as [Hpair Hrest]. apply negb_true_iff in Hpair.
  cbn [preprocess_transcript] in *. rewrite Hpair, (IH Hrest). reflexivity.
Qed.

(** X7. Preprocessing twice is preprocessing once, and a text without a
    lower-case letter directly before an upper-case one is left as it
    is. *)
Theorem preprocess_idempotent (text : string) :
  preprocess_transcript (preprocess_transcript text)
  = preprocess_transcript text
  /\ (boundary_free text = true -> preprocess_transcript text = text).
Proof.
  split; [|apply preprocess_fixed].
  apply preprocess_fixed.
  induction text as [|a rest IH]; [reflexivity|].
  destruct rest as [|b rest]; [reflexivity|].
  destruct (preprocess_head b rest) as [tail Htail].
  cbn [preprocess_transcript] in *.
  destruct (is_lower a && is_upper b) eqn:E; rewrite Htail in *.
  - cbn [append boundary_free].
    change (is_upper ".") with false. change (is_lower ".") with false.
    change (is_lower " ") with false.
    rewrite andb_false_r. cbn [andb negb]. exact IH.
  - cbn [boundary_free]. rewrite E. exact IH.
Qed.



End PreprocessFacts.

(** ** The transcript fetch *)

Module TranscriptFacts.
Import Transcript.

Lemma contains_cons (needle : string) (c : ascii) (rest : string) :
  contains needle (String c rest) = false ->
  String.prefix needle (String c rest) = false
  /\ contains needle rest = false.
Proof.
  cbn [contains]. destruct (String.prefix needle (String c rest)).
  - discriminate.
  - now split.
Qed.

Lemma prefix_v_eq (c d : ascii) (rest : string) :
  String.prefix "v=" (String c (String d rest))
  = Ascii.eqb c "v" && Ascii.eqb d "=".
Proof.
  cbn [String.prefix].
  destruct (ascii_dec "v" c) as [<-|Hc].
  - destruct (ascii_dec "=" d) as [<-|Hd].
    + destruct rest; reflexivity.
    + apply not_eq_sym, Ascii.eqb_neq in Hd. rewrite Hd. reflexivity.
  - apply not_eq_sym, Ascii.eqb_neq in Hc. rewrite Hc. reflexivity.
Qed.

Lemma split2_two (a b c d : ascii) (rest : string) :
  split2 a b (String c (String d rest))
  = if Ascii.eqb c a && Ascii.eqb d b then "" :: split2 a b rest
    else cons_head c (split2 a b (String d rest)).
Proof. reflexivity. Qed.

Lemma split2_no_match (s : string) :
  contains "v=" s = false -> split2 "v" "=" s = [s].
Proof.
  induction s as [|c rest IH]; [reflexivity|].
  intros H. apply contains_cons in H. destruct H as [Hp Hc].
  destruct rest as [|d rest]; [reflexivity|].
  rewrite prefix_v_eq in Hp. rewrite split2_two, Hp, (IH Hc).
  reflexivity.
Qed.

Lemma split2_first_match (base rest : string) :
  contains "v=" base = false ->
  split2 "v" "=" (base ++ "v=" ++ rest) = base :: split2 "v" "=" rest.
Proof.
  induction base as [|c base IH]; intros H.
  - change ("" ++ "v=" ++ rest) with (String "v" (String "=" rest)).
    rewrite split2_two. reflexivity.
  - apply contains_cons in H. destruct H as [Hp Hc].
    specialize (IH Hc). destruct base as [|d base].
    + change ("" ++ "v=" ++ rest) with (String "v" (String "=" rest)) in IH.
      change (String c "" ++ "v=" ++ rest)
        with (String c (String "v" (String "=" rest))).
      rewrite split2_two.
      change (Ascii.eqb "v" "=") with false. rewrite andb_false_r, IH.
      reflexivity.
    + rewrite prefix_v_eq in Hp.
      change (String c (String d base) ++ "v=" ++ rest)
        with (String c (String d (base ++ "v=" ++ rest))).
      rewrite split2_two, Hp.
      change (String d (base ++ "v=" ++ rest))
        with (String d base ++ "v=" ++ rest).
      rewrite IH. reflexivity.
Qed.

Lemma split_first_piece (sep : ascii) (id tail : string) :
  has_char sep id = false ->
  tail = "" \/ (exists more, tail = String sep more) ->
  exists pieces, split sep (id ++ tail) = id :: pieces.
Proof.
  induction id as [|c id IH]; intros Hid Htail.
  - destruct Htail as [-> | [more ->]]; cbn [append split].
    + now eexists.
    + rewrite Ascii.eqb_refl. now eexists.
  - cbn [has_char] in Hid. apply orb_false_iff in Hid.
    destruct Hid as [Hc Hid]. cbn [append split]. rewrite Hc.
    destruct (IH Hid Htail) as [pieces ->]. now eexists.
Qed.

(** X9. The video id of a watch URL: with the first [v=] after [base],
    the id is what follows it up to the next [&], provided no other [v=]
    comes after. *)
Theorem video_id_of_watch_url (base id tail : string) :
  contains "v=" base = false ->
  contains "v=" (id ++ tail) = false ->
  has_char "&" id = false ->
  tail = "" \/ (exists more, tail = String "&" more) ->
  video_id (base ++ "v=" ++ id ++ tail) = Return id.
Proof.
  intros Hbase Hrest Hid Htail. unfold video_id.
  rewrite (split2_first_match _ _ Hbase), (split2_no_match _ Hrest).
  cbn [item nth_error and_then].
  destruct (split_first_piece "&" id tail Hid Htail) as [pieces ->].
  reflexivity.
Qed.

Lemma texts_all_present (parts : list string) :
  texts (map Return parts) = Return parts.
Proof.
  induction parts as [|part parts IH]; [reflexivity|].
  cbn [map texts]. rewrite IH. reflexivity.
Qed.

Lemma texts_first_failure (parts : list string) (e : exception)
    (rest : list snippet) :
  texts (map Return parts ++ Throw e :: rest)%list = Throw e.
Proof.
  induction parts as [|part parts IH]; [reflexivity|].
  cbn [map app texts]. rewrite IH. reflexivity.
Qed.

(** X10. Which transcript is fetched, and what comes of it: the English
    one when [find_transcript] finds it; the first available one when it
    raises [NoTranscriptFound], an empty list ending in the wrapped index
    error; none when it raises anything else.  Of the transcript chosen,
    a failing [fetch()] and the first failing [d['text']] come out
    wrapped; when every [d['text']] returns, the texts come out joined by
    blanks. *)
Theorem english_first_then_any
    (raise_NoTranscriptFound : string -> exception)
    (list_transcripts : string -> attempt transcript_list)
    (video_url id : string) (listed : transcript_list) :
  video_id video_url = Return id ->
  list_transcripts id = Return listed ->
  (forall chosen,
     find_transcript_en listed = Return chosen
     \/ (exists text others,
           find_transcript_en listed = Throw (NoTranscriptFound text)
           /\ available listed = chosen :: others) ->
     (forall parts,
        chosen = Return (map Return parts) ->
        get_transcript raise_NoTranscriptFound list_transcripts video_url
        = Return (String.concat " " parts))
     /\ (forall parts e rest,
           chosen
           = Return (map Return parts ++ Throw (OtherError e) :: rest)%list ->
           get_transcript raise_NoTranscriptFound list_transcripts video_url
           = Throw (OtherError ("An error occurred: " ++ e)))
     /\ (forall e,
           chosen = Throw (OtherError e) ->
           get_transcript raise_NoTranscriptFound list_transcripts video_url
           = Throw (OtherError ("An error occurred: " ++ e))))
  /\ (forall text,
        find_transcript_en listed = Throw (NoTranscriptFound text) ->
        available listed = [] ->
        get_transcript raise_NoTranscriptFound list_transcripts video_url
        = Throw (OtherError "An error occurred: list index out of range"))
  /\ (forall e,
        find_transcript_en listed = Throw (OtherError e) ->
        get_transcript raise_NoTranscriptFound list_transcripts video_url
        = Throw (OtherError ("An error occurred: " ++ e))).
Proof.
  intros Hid Hlist. unfold get_transcript, get_transcript_body.
  rewrite Hid. cbn [and_then]. rewrite Hlist. cbn [and_then].
  split; [|split].
  - intros chosen Hchosen.
    assert (Hsel : match find_transcript_en listed with
                   | Throw (NoTranscriptFound _) => item (available listed) 0
                   | found => found
                   end = Return chosen).
    { destruct Hchosen as [-> | (text & others & -> & ->)]; reflexivity. }
    rewrite Hsel. cbn [and_then]. repeat split.
    + intros parts ->. cbn [and_then]. rewrite texts_all_present.
      reflexivity.
    + intros parts e rest ->. cbn [and_then]. rewrite texts_first_failure.
      reflexivity.
    + intros e ->. reflexivity.
  - intros text -> ->. reflexivity.
  - intros e ->. reflexivity.
Qed.

End TranscriptFacts.

(** ** The fetch and the runs together *)

Module TranscriptPipeline.
Import Transcript.

(** X20. A URL without [v=] never reaches the transcript service:
    whatever the service, [get_transcript] raises the wrapped index
    error. *)
Theorem url_without_v_fails
    (raise_NoTranscriptFound : string -> exception)
    (list_transcripts : string -> attempt transcript_list)
    (video_url : string) :
  contains "v=" video_url = false ->
  get_transcript raise_NoTranscriptFound list_transcripts video_url
  = Throw (OtherError "An error occurred: list index out of range").
Proof.
  intros H. unfold get_transcript, get_transcript_body, video_id.
  rewrite (TranscriptFacts.split2_no_match _ H). reflexivity.
Qed.

(** X21. What leaves [get_transcript]: an exception is either the one
    in which [raise NoTranscriptFound("No transcript found for this
    video.")] ends, or an exception whose text starts with "An error
    occurred: "; in the second case a fresh run of [generate_notes]
    returns that text behind a second "An error occurred: ", with nothing
    written. *)
Theorem fetch_failure_doubles_prefix
    (raise_NoTranscriptFound : string -> exception)
    (list_transcripts : string -> attempt transcript_list)
    (video_url : string) (e : exception) :
  get_transcript raise_NoTranscriptFound list_transcripts video_url
  = Throw e ->
  e = raise_NoTranscriptFound "No transcript found for this video."
  \/ exists text,
       e = OtherError ("An error occurred: " ++ text)
       /\ forall GEMINI_API_KEY key generate_content fs str,
            get_gemini_api_key GEMINI_API_KEY = Ok key ->
            generate_notes GEMINI_API_KEY
              (fun url =>
                 as_result str
                   (get_transcript raise_NoTranscriptFound list_transcripts
                      url))
              generate_content video_url None fs
            = ("An error occurred: An error occurred: " ++ text, fs, []).
Proof.
  intros H. pose proof H as Hbody. unfold get_transcript in Hbody.
  destruct (get_transcript_body list_transcripts video_url)
    as [transcript_text | [text | text]]; [discriminate | |].
  - left. congruence.
  - right. exists text. split; [congruence|].
    intros GEMINI_API_KEY key generate_content fs str Hkey.
    unfold generate_notes, generate_notes_body. rewrite Hkey.
    cbn [bind job_start]. unfold fresh_job. rewrite H.
    injection Hbody as <-. reflexivity.
Qed.

End TranscriptPipeline.

Module Runs.

Lemma chunk_text_cons (text : string) (max_chunk_size : Z) :
  exists first others,
    Chunker.chunk_text text max_chunk_size = first :: others.
Proof.
  pose proof (ChunkerFacts.join_chunk_text text max_chunk_size) as H.
  fold (closed (split "." text)) in H.
  rewrite ChunkerBounds.closed_split in H.
  destruct (Chunker.chunk_text text max_chunk_size) as [|first others].
  - destruct text; discriminate.
  - now eexists; eexists.
Qed.

(** X22. A fresh run whose transcript was fetched always calls the model,
    first for index 0 on the first chunk; for the empty transcript that
    chunk is the lone delimiter. *)
Theorem fresh_run_calls_model
    (GEMINI_API_KEY : option string)
    (get_transcript generate_content : string -> result string)
    (url key transcript : string) (fs : files) :
  get_gemini_api_key GEMINI_API_KEY = Ok key ->
  get_transcript url = Ok transcript ->
  exists chunk events,
    trace (generate_notes GEMINI_API_KEY get_transcript generate_content
             url None fs)
    = Generate 0 chunk :: events
    /\ hd_error (Chunker.chunk_text (preprocess_transcript transcript)
                   Chunker.default_max_chunk_size) = Some chunk
    /\ (transcript = "" -> chunk = ".").
Proof.
  intros Hkey Ht. unfold generate_notes, generate_notes_body.
  rewrite Hkey. cbn [bind job_start]. unfold fresh_job. rewrite Ht.
  cbn [bind]. change 0 with (Z.of_nat 0). rewrite slice_from_nat.
  cbn [skipn].
  destruct (chunk_text_cons (preprocess_transcript transcript)
              Chunker.default_max_chunk_size) as (first & others & E).
  rewrite E. cbn [generation_loop hd_error].
  assert (Hempty : transcript = "" -> first = ".").
  { intros ->. vm_compute in E. now injection E as <- _. }
  destruct (generate_content (build_prompt (Z.of_nat 0) "" first))
    as [text|e].
  - destruct (generation_loop _ _ _ _ _ _ _) as [[r fs'] events].
    eexists. eexists. cbn [trace snd]. now repeat split.
  - eexists. eexists. cbn [trace snd]. now repeat split.
Qed.

Lemma process_chunks_agree (model model' : string -> result string) :
  (forall prompt text, model prompt = Ok text -> model' prompt = Ok text) ->
  forall chunks index document document',
  process_chunks model index chunks document = Some document' ->
  process_chunks model' index chunks document = Some document'.
Proof.
  intros Hagree. induction chunks as [|chunk chunks IH];
    intros index document document' H; [exact H|].
  cbn [process_chunks] in *. unfold generation_step in *.
  destruct (model (build_prompt index document chunk)) as [text|e] eqn:E;
    [|discriminate].
  rewrite (Hagree _ _ E). apply IH. exact H.
Qed.

(** X23. Save and resume: when a run fails at chunk [i] after at least
    one successful step, the record it leaves in the checkpoint file has
    next index [i]; resuming from that record with a model that answers
    as before wherever the first one answered, and that succeeds to the
    end, returns the Document of all the chunks. *)
Theorem resume_after_failure
    (GEMINI_API_KEY : option string)
    (get_transcript model model' : string -> result string)
    (url key document chunk e document_n : string) (chunks : list string)
    (resume_data : option progress) (fs : files) (k i : nat) :
  (forall prompt text, model prompt = Ok text -> model' prompt = Ok text) ->
  get_gemini_api_key GEMINI_API_KEY = Ok key ->
  run_start get_transcript model url chunks resume_data k ->
  (k < i)%nat ->
  document_after model chunks i = Some document ->
  nth_error chunks i = Some chunk ->
  generation_step model (Z.of_nat i) document chunk = Raise e ->
  document_after model' chunks (length chunks) = Some document_n ->
  exists record,
    progress_json
      (final_files (generate_notes GEMINI_API_KEY get_transcript model url
                      resume_data fs))
    = Some (Json record)
    /\ chunk_index record = Some (Z.of_nat i)
    /\ returned_notes
         (generate_notes GEMINI_API_KEY get_transcript model' url
            (Some record)
            (final_files (generate_notes GEMINI_API_KEY get_transcript model
                            url resume_data fs)))
       = document_n.
Proof.
  intros Hagree Hkey Hstart Hki Hd Hn Hf Hdn.
  pose proof (failure_stops model _ _ _ _ _ Hd Hn Hf) as Hstop.
  destruct (generate_notes_is_loop GEMINI_API_KEY get_transcript model
              _ _ _ fs _ _ Hkey Hstart) as (document_k & Hk & Hdk & Hloop).
  destruct (generation_loop_run model url chunks _ k document_k fs _
              Hk eq_refl Hdk eq_refl) as (m & _ & Hm & Hp & _).
  rewrite <- Hloop in Hm, Hp.
  destruct (stops_at_unique model _ _ _ _ _ Hm Hstop) as [-> Hr].
  assert ((i =? k)%nat = false) as E by (apply Nat.eqb_neq; lia).
  rewrite E, Hr in Hp.
  exists (make_progress url chunks document (Z.of_nat i)).
  split; [exact Hp|]. split; [reflexivity|].
  assert (Hi : (i <= length chunks)%nat)
    by (apply Nat.lt_le_incl, nth_error_Some; congruence).
  apply (completed_run_returns GEMINI_API_KEY get_transcript model' url
           chunks _ _ i key document_n Hkey).
  - apply start_resume; [exact Hi|].
    apply (process_chunks_agree model model' Hagree). exact Hd.
  - exact Hdn.
Qed.

End Runs.

(** ** The further properties on examples *)

Module Examples.
Import Transcript.

(** Scenario A: a short text is one chunk. *)
Lemma short_text_single_chunk_witness :
  Chunker.chunk_text "Hello world. This is a test." 1000
  = ["Hello world. This is a test." ++ "."].
Proof.
  apply ChunkerBounds.short_text_single_chunk. vm_compute. reflexivity.
Defined.

Lemma video_id_of_watch_url_witness :
  video_id ("https://www.youtube.com/watch?" ++ "v=" ++ "talk" ++ "&t=42s")
  = Return "talk".
Proof.
  apply TranscriptFacts.video_id_of_watch_url;
    [reflexivity | reflexivity | reflexivity |].
  right. eexists. reflexivity.
Defined.

(** The talk has no English transcript: the first available one is
    fetched, and the first snippet, which cannot be indexed, ends the
    fetch. *)
Lemma english_first_then_any_witness :
  get_transcript constructor_rejects talk_service talk_url
  = Throw (OtherError
             ("An error occurred: "
              ++ "'FetchedTranscriptSnippet' object is not subscriptable")).
Proof.
  destruct (TranscriptFacts.english_first_then_any constructor_rejects
              talk_service talk_url "talk" talk_listed) as (Hchosen & _);
    [reflexivity | reflexivity |].
  destruct (Hchosen (Return [not_subscriptable; not_subscriptable]))
    as (_ & Hfail & _).
  - right. exists "en", []. split; reflexivity.
  - apply (Hfail [] _ [not_subscriptable]). reflexivity.
Defined.

Lemma url_without_v_fails_witness :
  get_transcript constructor_rejects talk_service short_url
  = Throw (OtherError "An error occurred: list index out of range").
Proof.
  apply TranscriptPipeline.url_without_v_fails. reflexivity.
Defined.

Lemma fetch_failure_doubles_prefix_witness :
  exists text,
    generate_notes (Some "key")
      (fun url => as_result (fun text => text)
                    (get_transcript constructor_rejects talk_service url))
      stub_model short_url None no_files
    = ("An error occurred: An error occurred: " ++ text, no_files, []).
Proof.
  destruct (TranscriptPipeline.fetch_failure_doubles_prefix
              constructor_rejects talk_service short_url
              (OtherError "An error occurred: list index out of range"))
    as [H | (text & _ & Hrun)]; [reflexivity | discriminate |].
  exists text. apply (Hrun (Some "key") "key"). reflexivity.
Defined.


Lemma resume_past_end_witness :
  generate_notes (Some "key") lecture_transcript stub_model lecture_url
    (Some (make_progress lecture_url lecture_chunks "Notes (eeee.)" 5))
    no_files
  = ("Notes (eeee.)", no_files, []).
Proof.
  apply (resume_past_end (Some "key") lecture_transcript stub_model
           lecture_url lecture_url "key");
    [reflexivity | vm_compute; discriminate].
Defined.

Lemma resume_missing_key_witness :
  generate_notes (Some "key") talk_transcript stub_model lecture_url
    (Some incomplete_record) no_files
  = ("An error occurred: 'notes'", no_files, []).
Proof.
  destruct (resume_missing_key (Some "key") talk_transcript stub_model
              lecture_url "key" incomplete_record no_files eq_refl eq_refl)
    as (_ & Hnotes & _).
  apply Hnotes; [discriminate | reflexivity].
Defined.

Lemma ask_choice_first_valid_witness :
  ask_choice (["x"; "yes"] ++ "R" :: ["later"]) = (Ok (lower "R"), ["later"])
  /\ ask_choice ["x"; "yes"] = (Raise "EOF when reading a line", []).
Proof.
  apply ask_choice_first_valid.
  - constructor; [split; vm_compute; discriminate|].
    constructor; [split; vm_compute; discriminate|]. constructor.
  - left. reflexivity.
Defined.

(** After the failure on chunk 2 of the lecture, [main] files the partial
    notes and removes the checkpoint. *)
Lemma partial_notes_filed_as_complete_witness :
  main_generate (Some "key") lecture_transcript failing_model
    (Some lecture_url) None [] no_files
  = Finished
      {| progress_json := None; academic_notes := Some "Notes (bbbb.)" |}
      (trace (generate_notes (Some "key") lecture_transcript failing_model
                lecture_url None no_files)).
Proof.
  apply (partial_notes_filed_as_complete (Some "key") lecture_transcript
           failing_model lecture_url lecture_chunks None [] no_files 0 2
           "Notes (bbbb.)" (replicate "c" 5000 ++ ".")
           "429 Resource has been exhausted" "key").
  - reflexivity.
  - reflexivity.
  - apply start_fresh with (transcript := lecture);
      [reflexivity | vm_compute; reflexivity].
  - lia.
  - vm_compute. reflexivity.
  - reflexivity.
  - vm_compute. reflexivity.
  - reflexivity.
Defined.

Lemma new_url_discards_checkpoint_witness :
  main None talk_transcript stub_model (Some other_url) []
    interrupted_files
  = Finished (remove_progress interrupted_files) [].
Proof.
  apply (proj2 (new_url_discards_checkpoint None talk_transcript stub_model
                  other_url lecture_url checkpoint_after_two []
                  interrupted_files eq_refl eq_refl eq_refl
                  (proj1 (String.eqb_neq other_url lecture_url) eq_refl))).
  reflexivity.
Defined.

Lemma main_resumption_equivalence_witness :
  exists events events0,
    main (Some "key") lecture_transcript stub_model None ["r"]
      interrupted_files
    = Finished
        {| progress_json := None; academic_notes := Some "Notes (eeee.)" |}
        events
    /\ main (Some "key") lecture_transcript stub_model (Some lecture_url) []
         no_files
       = Finished
           {| progress_json := None; academic_notes := Some "Notes (eeee.)" |}
           events0.
Proof.
  apply (main_resumption_equivalence (Some "key") lecture_transcript
           stub_model lecture_url "key" lecture "Notes (bbbb.)"
           "Notes (eeee.)" lecture_chunks 2 None ["r"] [] []
           interrupted_files no_files).
  - reflexivity.
  - reflexivity.
  - reflexivity.
  - vm_compute. reflexivity.
  - vm_compute. lia.
  - vm_compute. reflexivity.
  - vm_compute. reflexivity.
  - reflexivity.
  - reflexivity.
  - left. reflexivity.
  - reflexivity.
  - reflexivity.
Defined.

Lemma fresh_run_calls_model_witness :
  exists chunk events,
    trace (generate_notes (Some "key") talk_transcript stub_model lecture_url
             None no_files)
    = Generate 0 chunk :: events
    /\ hd_error (Chunker.chunk_text
                   (preprocess_transcript "Hello world. This is a test.")
                   Chunker.default_max_chunk_size) = Some chunk
    /\ ("Hello world. This is a test." = "" -> chunk = ".").
Proof.
  apply (Runs.fresh_run_calls_model (Some "key") talk_transcript stub_model
           lecture_url "key" "Hello world. This is a test." no_files);
    reflexivity.
Defined.

(** Scenarios C and D in a row: the lecture fails on chunk 2, then is
    resumed from the file with the model back in service. *)
Lemma resume_after_failure_witness :
  exists record,
    progress_json
      (final_files (generate_notes (Some "key") lecture_transcript
                      failing_model lecture_url None no_files))
    = Some (Json record)
    /\ chunk_index record = Some (Z.of_nat 2)
    /\ returned_notes
         (generate_notes (Some "key") lecture_transcript stub_model
            lecture_url (Some record)
            (final_files (generate_notes (Some "key") lecture_transcript
                            failing_model lecture_url None no_files)))
       = "Notes (eeee.)".
Proof.
  apply (Runs.resume_after_failure (Some "key") lecture_transcript
           failing_model stub_model lecture_url "key" "Notes (bbbb.)"
           (replicate "c" 5000 ++ ".") "429 Resource has been exhausted"
           "Notes (eeee.)" lecture_chunks None no_files 0 2).
  - intros prompt text. unfold failing_model, stub_model.
    destruct (contains "ccc" prompt); [discriminate | exact (fun H => H)].
  - reflexivity.
  - apply start_fresh with (transcript := lecture);
      [reflexivity | vm_compute; reflexivity].
  - lia.
  - vm_compute. reflexivity.
  - reflexivity.
  - vm_compute. reflexivity.
  - vm_compute. reflexivity.
Defined.

End Examples.
